(** * binance_scraper: a shallow embedding of [binance_data_scraper.py]

    The development follows the source file top to bottom: the JSON values
    the two REST endpoints answer with, the Python operations the list
    comprehension of [scrape] uses, the pandas operations on data frames,
    the class [BinanceHistoricalDataScraper] with its three coroutines, and
    the module-level command-line handling.  Theorems come last. *)

From Stdlib Require Import ZArith String Ascii List Bool Lia DecimalString.
From stdpp Require Import base list.
Import ListNotations.
Local Open Scope string_scope.
Local Open Scope list_scope.
Set Warnings "-register-all".

(** ** JSON values and Python exceptions *)

(** What [response.json()] returns.  Numbers are integers: the exchange
    sends instants and counts as integers and prices as decimal strings.
    An object is the list of its items (a Python [dict], keys distinct). *)
Inductive json : Type :=
| JNull
| JBool (b : bool)
| JInt (z : Z)
| JStr (s : string)
| JArr (items : list json)
| JObj (members : list (string * json)).

(** The exceptions that can escape the program. *)
Inductive exn : Type :=
| ClientError (msg : string)      (* aiohttp: connection or payload failure *)
| KeyError (key : string)
| TypeError
| AttributeError
| ValueError
| OutOfBoundsDatetime
| EOFError.

Definition result (A : Type) : Type := exn + A.

Module Py.

(** [obj[key]] for a string key. *)
Fixpoint assoc (key : string) (members : list (string * json)) : option json :=
  match members with
  | [] => None
  | (k, v) :: rest => if String.eqb k key then Some v else assoc key rest
  end.

Definition getitem (obj : json) (key : string) : result json :=
  match obj with
  | JObj members =>
      match assoc key members with
      | Some v => inr v
      | None => inl (KeyError key)
      end
  | _ => inl TypeError
  end.

(** The characters of a string, each as a string of length one. *)
Fixpoint chars (s : string) : list json :=
  match s with
  | EmptyString => []
  | String c rest => JStr (String c EmptyString) :: chars rest
  end.

(** [for x in obj]: the elements the loop visits. *)
Definition iter (obj : json) : result (list json) :=
  match obj with
  | JArr items => inr items
  | JObj members => inr (map (fun kv => JStr (fst kv)) members)
  | JStr s => inr (chars s)
  | _ => inl TypeError
  end.

(** [str.endswith]. *)
Fixpoint str_endswith (s suffix : string) : bool :=
  if String.eqb s suffix then true
  else match s with
       | EmptyString => false
       | String _ rest => str_endswith rest suffix
       end.

(** [obj.endswith(suffix)]: only strings have the method. *)
Definition endswith (obj : json) (suffix : string) : result bool :=
  match obj with
  | JStr s => inr (str_endswith s suffix)
  | _ => inl AttributeError
  end.

(** [obj == "literal"]. *)
Definition eq_str (obj : json) (lit : string) : bool :=
  match obj with
  | JStr s => String.eqb s lit
  | _ => false
  end.

(** [str(n)] and [f"{n}"] for an [int]. *)
Definition str_of_int (n : Z) : string := NilZero.string_of_int (Z.to_int n).

End Py.

(** ** The symbol catalog: lines 62-64 of [scrape] *)

(** One round of the comprehension
    [[symbol['symbol'] for symbol in symbols_data
      if symbol['symbol'].endswith('USDT') and symbol['status'] == "TRADING"]]:
    [inr None] when the entry is skipped, [inr (Some s)] when it is kept.
    [and] evaluates its right operand only when the left one is true. *)
Definition keep_symbol (symbol : json) : result (option string) :=
  match Py.getitem symbol "symbol" with
  | inl e => inl e
  | inr ident =>
      match Py.endswith ident "USDT" with
      | inl e => inl e
      | inr false => inr None
      | inr true =>
          match Py.getitem symbol "status" with
          | inl e => inl e
          | inr status =>
              if Py.eq_str status "TRADING"
              then match ident with
                   | JStr s => inr (Some s)
                   | _ => inl AttributeError   (* not reached: [endswith] passed *)
                   end
              else inr None
          end
      end
  end.

Fixpoint comprehension (symbols_data : list json) : result (list string) :=
  match symbols_data with
  | [] => inr []
  | symbol :: rest =>
      match keep_symbol symbol with
      | inl e => inl e
      | inr kept =>
          match comprehension rest with
          | inl e => inl e
          | inr tail =>
              inr (match kept with Some s => s :: tail | None => tail end)
          end
      end
  end.

(** [response['symbols']] followed by the comprehension. *)
Definition list_symbols (response : json) : result (list string) :=
  match Py.getitem response "symbols" with
  | inl e => inl e
  | inr symbols_data =>
      match Py.iter symbols_data with
      | inl e => inl e
      | inr entries => comprehension entries
      end
  end.

(** ** pandas: the data-frame operations the program calls *)

(** A cell of a frame: a value taken from the response, an integer stored
    in a float column, the missing-value marker, or what [pd.to_datetime]
    produces. *)
Inductive cell : Type :=
| Val (j : json)
| Float (z : Z)           (* [float(z)], the float64 an integer is stored as *)
| NaN
| Timestamp (ms : Z)      (* the instant, in milliseconds since the epoch *)
| NaT.

(** [index = None] is the default [RangeIndex]; [Some (name, keys)] after
    [set_index].  [rows] is row-major, one cell per entry of [columns]. *)
Record DataFrame : Type := mkFrame {
  index : option (string * list cell);
  columns : list string;
  rows : list (list cell)
}.

(** What [to_csv] leaves on disk: the header row and one record per row. *)
Record Table : Type := mkTable {
  header : list string;
  body : list (list cell)
}.

Module pd.

(** [pd.DataFrame()] *)
Definition empty : DataFrame := mkFrame None [] [].

Fixpoint position (name : string) (cols : list string) : option nat :=
  match cols with
  | [] => None
  | c :: rest =>
      if String.eqb c name then Some 0%nat
      else match position name rest with
           | Some i => Some (S i)
           | None => None
           end
  end.

Definition has (name : string) (cols : list string) : bool :=
  match position name cols with Some _ => true | None => false end.

(** The cell of [row] under column [name], when the row is laid out along
    [cols]; the missing-value marker when there is none. *)
Definition at_col (cols : list string) (row : list cell) (name : string) : cell :=
  match position name cols with
  | Some i => nth i row NaN
  | None => NaN
  end.

(** A row laid out along [cols], laid out anew along [target]. *)
Definition reindex (cols target : list string) (row : list cell) : list cell :=
  map (at_col cols row) target.

Definition width (data : list (list json)) : nat :=
  fold_right (fun row w => Nat.max (length row) w) 0%nat data.

(** A short row is filled up with [None]. *)
Definition pad (w : nat) (row : list json) : list cell :=
  map Val row ++ repeat (Val JNull) (w - length row).

(** The bounds of the integer types a column can have. *)
Definition int64_min : Z := (- 2 ^ 63)%Z.
Definition int64_max : Z := (2 ^ 63 - 1)%Z.
Definition uint64_max : Z := (2 ^ 64 - 1)%Z.

(** The scan by which [pd.DataFrame] types a column, top to bottom, as far
    as it changes a value: [true] when the column is stored as floats.  That
    is the case when it holds integers and [None] and nothing else, at least
    one of each, unless an integer met before the first [None] is outside
    the 64-bit range, or a negative one and one above [int64_max] are; in
    every other case the cells stay as they are.  [null] and [int] tell
    whether a [None] and an integer have been met, [sint] and [uint] whether
    a negative integer and one above [int64_max] have been met before the
    first [None]. *)
Fixpoint becomes_float (col : list cell) (null int sint uint : bool) : bool :=
  match col with
  | [] => null && int
  | Val JNull :: rest => becomes_float rest true int sint uint
  | Val (JInt z) :: rest =>
      if null then becomes_float rest null true sint uint
      else
        let sint' := sint || ((int64_min <=? z) && (z <? 0))%Z in
        let uint' := uint || ((int64_max <? z) && (z <=? uint64_max))%Z in
        if (uint' && sint') || (uint64_max <? z)%Z || (z <? int64_min)%Z
        then false
        else becomes_float rest null true sint' uint'
  | _ :: _ => false
  end.

(** A cell of a column that is stored as floats. *)
Definition to_float (c : cell) : cell :=
  match c with
  | Val (JInt z) => Float z
  | Val JNull => NaN
  | _ => c
  end.

(** A row whose cells are stored as the columns are typed. *)
Fixpoint retype (floats : list bool) (row : list cell) : list cell :=
  match floats, row with
  | f :: floats', c :: row' =>
      (if f then to_float c else c) :: retype floats' row'
  | _, _ => []
  end.

Definition column (j : nat) (rs : list (list cell)) : list cell :=
  map (fun row => nth j row NaN) rs.

(** The rows of [w] cells each, every column typed by the scan. *)
Definition infer (w : nat) (rs : list (list cell)) : list (list cell) :=
  let floats :=
    map (fun j => becomes_float (column j rs) false false false false)
        (seq 0 w) in
  map (retype floats) rs.

(** [pd.DataFrame(data, columns=names)] for an array of arrays: no rows
    give an empty frame with the columns asked for; otherwise the widest
    row decides how many columns the data has, and that number must be
    the number of names; the short rows are filled up and the columns are
    typed. *)
Definition from_rows (data : list (list json)) (names : list string)
  : result DataFrame :=
  match data with
  | [] => inr (mkFrame None names [])
  | _ :: _ =>
      if Nat.eqb (width data) (length names)
      then inr (mkFrame None names
                  (infer (width data) (map (pad (width data)) data)))
      else inl ValueError
  end.

(** [df[name] = scalar]: an existing column is overwritten, a new one is
    added last. *)
Definition setitem_scalar (df : DataFrame) (name : string) (v : cell) : DataFrame :=
  let cols := if has name (columns df) then columns df
              else columns df ++ [name] in
  mkFrame (index df) cols
    (map (fun row => map (fun c => if String.eqb c name then v
                                   else at_col (columns df) row c) cols)
         (rows df)).

(** [pd.concat([a, b], ignore_index=True)]: the columns of [a], then those
    of [b] that [a] lacks; the rows of [a], then the rows of [b]. *)
Definition concat (a b : DataFrame) : DataFrame :=
  let cols := columns a ++ List.filter (fun c => negb (has c (columns a))) (columns b) in
  mkFrame None cols
    (map (reindex (columns a) cols) (rows a)
     ++ map (reindex (columns b) cols) (rows b)).

(** [df[name]] *)
Definition getitem (df : DataFrame) (name : string) : result (list cell) :=
  if has name (columns df)
  then inr (map (fun row => at_col (columns df) row name) (rows df))
  else inl (KeyError name).

(** [df[name] = series], the series having one value per row. *)
Fixpoint put_col (cols target : list string) (name : string)
    (rs : list (list cell)) (vs : list cell) : list (list cell) :=
  match rs, vs with
  | row :: rs', v :: vs' =>
      map (fun c => if String.eqb c name then v else at_col cols row c) target
      :: put_col cols target name rs' vs'
  | _, _ => []
  end.

Definition setitem (df : DataFrame) (name : string) (vs : list cell) : DataFrame :=
  let cols := if has name (columns df) then columns df
              else columns df ++ [name] in
  mkFrame (index df) cols (put_col (columns df) cols name (rows df) vs).

Definition without (names : list string) (cols : list string) : list string :=
  List.filter (fun c => negb (existsb (String.eqb c) names)) cols.

(** [df.set_index(name, inplace=True)] *)
Definition set_index (df : DataFrame) (name : string) : result DataFrame :=
  match getitem df name with
  | inl e => inl e
  | inr keys =>
      let cols := without [name] (columns df) in
      inr (mkFrame (Some (name, keys)) cols
             (map (reindex (columns df) cols) (rows df)))
  end.

(** [df.drop(names, axis=1, inplace=True)] *)
Definition drop (df : DataFrame) (names : list string) : result DataFrame :=
  match List.find (fun n => negb (has n (columns df))) names with
  | Some missing => inl (KeyError missing)
  | None =>
      let cols := without names (columns df) in
      inr (mkFrame (index df) cols
             (map (reindex (columns df) cols) (rows df)))
  end.

(** The table [df.to_csv(path)] writes: the index first, then the columns. *)
Definition to_table (df : DataFrame) : Table :=
  match index df with
  | Some (name, keys) =>
      mkTable (name :: columns df)
        (map (fun kr => fst kr :: snd kr) (combine keys (rows df)))
  | None =>
      mkTable (EmptyString :: columns df)
        (map (fun ir => Val (JInt (Z.of_nat (fst ir))) :: snd ir)
             (combine (seq 0 (length (rows df))) (rows df)))
  end.

End pd.

(** ** The state the program runs in, and its monad *)

(** [self.params = {'tf': tf, 'limit': limit}] *)
Record Params : Type := mkParams { tf : string; limit : Z }.

(** The attributes of a [BinanceHistoricalDataScraper]. *)
Record Scraper : Type := mkScraper {
  symbols_url : string;
  symbols_list : list string;
  params : Params;
  historical_data : DataFrame
}.

(** What the program does to the outside: the URLs it has requested, oldest
    first; the count of the progress bar the tasks update; and the file
    [binance_historical_data.csv], [None] while it does not exist. *)
Record World : Type := mkWorld {
  sent : list string;
  pbar : nat;
  disk : option Table
}.

Record State : Type := mkState { self : Scraper; world : World }.

(** The exchange: the answer to the [k]-th request the program makes, for the
    URL requested.  [inl] is a failure of [session.get] or of
    [response.json()]. *)
Definition Source : Type := nat -> string -> result json.

(** A data source is frozen when its answer depends on the URL alone. *)
Definition frozen (source : Source) : Prop :=
  forall k k' url, source k url = source k' url.

Definition M (A : Type) : Type := State -> result A * State.

Definition ret {A} (a : A) : M A := fun st => (inr a, st).

Definition bind {A B} (m : M A) (k : A -> M B) : M B :=
  fun st =>
    match m st with
    | (inl e, st') => (inl e, st')
    | (inr a, st') => k a st'
    end.

Definition lift {A} (r : result A) : M A := fun st => (r, st).

Definition get_self : M Scraper := fun st => (inr (self st), st).

Definition set_self (s : Scraper) : M unit :=
  fun st => (inr tt, mkState s (world st)).

Definition modify_world (f : World -> World) : M unit :=
  fun st => (inr tt, mkState (self st) (f (world st))).

Notation "x <- m ;; k" := (bind m (fun x => k))
  (at level 100, m at next level, right associativity).
Notation "m ;;; k" := (bind m (fun _ => k))
  (at level 100, right associativity).

Definition with_symbols_list (s : Scraper) (l : list string) : Scraper :=
  mkScraper (symbols_url s) l (params s) (historical_data s).

Definition with_historical_data (s : Scraper) (df : DataFrame) : Scraper :=
  mkScraper (symbols_url s) (symbols_list s) (params s) df.

(** ** class BinanceHistoricalDataScraper *)

Definition kline_columns : list string :=
  ["Open time"; "Open"; "High"; "Low"; "Close"; "Volume"; "Close time";
   "Quote asset volume"; "Number of trades";
   "Taker buy base asset volume"; "Taker buy quote asset volume";
   "Ignore"].

Definition dropped_columns : list string :=
  ["Close time"; "Quote asset volume"; "Number of trades";
   "Taker buy base asset volume"; "Taker buy quote asset volume"; "Ignore"].

(** [__init__] *)
Definition init (tf : string) (limit : Z) : Scraper :=
  mkScraper "https://api.binance.com/api/v3/exchangeInfo" []
            (mkParams tf limit) pd.empty.

(** The rows of a response that is an array of arrays. *)
Fixpoint arrays (items : list json) : option (list (list json)) :=
  match items with
  | [] => Some []
  | JArr r :: rest =>
      match arrays rest with
      | Some data => Some (r :: data)
      | None => None
      end
  | _ :: _ => None
  end.

(** The largest and smallest millisecond instants a nanosecond [Timestamp]
    holds. *)
Definition in_bounds (ms : Z) : bool :=
  ((-9223372036854 <=? ms) && (ms <=? 9223372036854))%Z.

Section Run.

(** pandas on inputs the exchange does not document, left open: the rows
    [pd.DataFrame] builds from a response that is not an array of arrays,
    and [pd.to_datetime] on a cell that is neither an integer in range nor
    a missing value. *)
Variable irregular_rows : json -> result (list (list cell)).
Variable to_datetime_other : cell -> result cell.

Variable source : Source.

(** The completion order of the concurrent fetches: at the [n]-th
    completion, [nth n schedule 0] chooses among the fetches still in
    flight (modulo their number). *)
Variable schedule : list nat.

(** [pd.DataFrame(response, columns=names)] *)
Definition DataFrame_of (response : json) (names : list string)
  : result DataFrame :=
  match response with
  | JArr items =>
      match arrays items with
      | Some data => pd.from_rows data names
      | None =>
          match irregular_rows response with
          | inl e => inl e
          | inr rs => inr (mkFrame None names rs)
          end
      end
  | _ =>
      match irregular_rows response with
      | inl e => inl e
      | inr rs => inr (mkFrame None names rs)
      end
  end.

(** [pd.to_datetime(series, unit='ms')], cell by cell. *)
Definition to_datetime_cell (c : cell) : result cell :=
  match c with
  | Val (JInt ms) =>
      if in_bounds ms then inr (Timestamp ms) else to_datetime_other c
  | Val JNull => inr NaT
  | NaN => inr NaT
  | _ => to_datetime_other c
  end.

Fixpoint to_datetime (series : list cell) : result (list cell) :=
  match series with
  | [] => inr []
  | c :: rest =>
      match to_datetime_cell c with
      | inl e => inl e
      | inr t =>
          match to_datetime rest with
          | inl e => inl e
          | inr ts => inr (t :: ts)
          end
      end
  end.

(** [session.get(url)] is issued: the request is logged and its answer is
    on its way. *)
Definition fetch_begin (url : string) : M (result json) :=
  fun st =>
    let w := world st in
    (inr (source (length (sent w)) url),
     mkState (self st) (mkWorld (sent w ++ [url]) (pbar w) (disk w))).

(** [fetch]: the request and the wait for [response.json()]. *)
Definition fetch (url : string) : M json :=
  answer <- fetch_begin url ;; lift answer.

(** [get_historical_data] up to its [await]: the endpoint is formatted from
    [self.params] and the request is issued. *)
Definition get_historical_data_begin (symbol : string) : M (result json) :=
  s <- get_self ;;
  let endpoint :=
    ("https://api.binance.com/api/v3/klines?symbol=" ++ symbol
     ++ "&interval=" ++ tf (params s)
     ++ "&limit=" ++ Py.str_of_int (limit (params s)))%string in
  fetch_begin endpoint.

(** [get_historical_data] from the answer on: the frame is built and
    tagged, the progress bar advances. *)
Definition get_historical_data_end (symbol : string) (answer : result json)
  : M DataFrame :=
  response <- lift answer ;;
  symbol_df <- lift (DataFrame_of response kline_columns) ;;
  let symbol_df := pd.setitem_scalar symbol_df "Symbol" (Val (JStr symbol)) in
  modify_world (fun w => mkWorld (sent w) (pbar w + 1) (disk w)) ;;;
  ret symbol_df.

(** [get_historical_data], awaited on its own. *)
Definition get_historical_data (symbol : string) : M DataFrame :=
  answer <- get_historical_data_begin symbol ;;
  get_historical_data_end symbol answer.

(** A task in flight: its place among the tasks, its symbol and the answer
    its request will get. *)
Definition InFlight : Type := (nat * string * result json)%type.

(** [asyncio.ensure_future] for every symbol, in order: every task runs up
    to its [await]. *)
Fixpoint ensure_futures (i : nat) (symbols : list string) : M (list InFlight) :=
  match symbols with
  | [] => ret []
  | symbol :: rest =>
      answer <- get_historical_data_begin symbol ;;
      tasks <- ensure_futures (S i) rest ;;
      ret ((i, symbol, answer) :: tasks)
  end.

(** [asyncio.gather] over the tasks: [n] completions, in the order of the
    schedule.  A task that completes stores its result in its own slot; a
    task that raises makes [gather] raise at once. *)
Fixpoint gather_loop (n step : nat) (pending : list InFlight)
    (slots : list (option DataFrame)) : M (list (option DataFrame)) :=
  match n with
  | O => ret slots
  | S n' =>
      let k := (nth step schedule 0 mod length pending)%nat in
      match pending !! k with
      | None => ret slots
      | Some (i, symbol, answer) =>
          df <- get_historical_data_end symbol answer ;;
          gather_loop n' (S step) (delete k pending) (<[i := Some df]> slots)
      end
  end.

(** The results are those of the tasks in the order of the tasks. *)
Definition gather (tasks : list InFlight) : M (list DataFrame) :=
  slots <- gather_loop (length tasks) 0 tasks (replicate (length tasks) None) ;;
  ret (omap id slots).

Definition get_historical_data_attr : M DataFrame :=
  fun st => (inr (historical_data (self st)), st).

Definition set_historical_data (df : DataFrame) : M unit :=
  fun st => (inr tt, mkState (with_historical_data (self st) df) (world st)).

(** [for result in results:
      self.historical_data = pd.concat([self.historical_data, result], ignore_index=True)] *)
Fixpoint concat_results (results : list DataFrame) : M unit :=
  match results with
  | [] => ret tt
  | result :: rest =>
      acc <- get_historical_data_attr ;;
      set_historical_data (pd.concat acc result) ;;;
      concat_results rest
  end.

(** [self.historical_data[name] = pd.to_datetime(self.historical_data[name], unit='ms')] *)
Definition convert_column (name : string) : M unit :=
  df <- get_historical_data_attr ;;
  series <- lift (pd.getitem df name) ;;
  stamps <- lift (to_datetime series) ;;
  set_historical_data (pd.setitem df name stamps).

(** [scrape], the block under [async with aiohttp.ClientSession()]. *)
Definition scrape_fetch_all : M (list DataFrame) :=
  s <- get_self ;;
  response <- fetch (symbols_url s) ;;
  symbols <- lift (list_symbols response) ;;
  set_self (with_symbols_list s symbols) ;;;
  tasks <- ensure_futures 0 symbols ;;
  gather tasks.

(** [scrape], from the concatenation to [to_csv]. *)
Definition scrape_assemble (results : list DataFrame) : M unit :=
  concat_results results ;;;
  convert_column "Open time" ;;;
  convert_column "Close time" ;;;
  df <- get_historical_data_attr ;;
  df <- lift (pd.set_index df "Open time") ;;
  set_historical_data df ;;;
  df <- lift (pd.drop df dropped_columns) ;;
  set_historical_data df ;;;
  modify_world (fun w => mkWorld (sent w) (pbar w) (Some (pd.to_table df))).

Definition scrape : M unit :=
  results <- scrape_fetch_all ;;
  scrape_assemble results.

(** ** The module level: command line, prompts, and the run *)

(** [args = parser.parse_args()]: each option is given or [None]. *)
Record Args : Type := mkArgs { arg_limit : option Z; arg_tf : option string }.

(** What the two prompts evaluate to when they are reached:
    [int(input(...))] and [str(input(...))]. *)
Record Console : Type := mkConsole {
  input_limit : result Z;
  input_tf : result string
}.

(** [limit]: the option, or else the answer to the prompt. *)
Definition cli_limit (args : Args) (console : Console) : result Z :=
  match arg_limit args with
  | None => input_limit console
  | Some l => inr l
  end.

(** [tf]: the option, or else the answer to the prompt. *)
Definition cli_tf (args : Args) (console : Console) : result string :=
  match arg_tf args with
  | None => input_tf console
  | Some t => inr t
  end.

(** The module body from [parse_args] on:
    [scraper = BinanceHistoricalDataScraper(tf=tf, limit=limit)] and
    [asyncio.run(scraper.scrape())]. *)
Definition main (args : Args) (console : Console) (w : World)
  : result unit * World :=
  match cli_limit args console with
  | inl e => (inl e, w)
  | inr limit =>
      match cli_tf args console with
      | inl e => (inl e, w)
      | inr tf =>
          let scraper := init tf limit in
          let (outcome, st) := scrape (mkState scraper w) in
          (outcome, world st)
      end
  end.

End Run.


(** ** Sample exchanges *)

Module Sample.

Definition entry (ident status : string) : json :=
  JObj [("symbol", JStr ident); ("status", JStr status)].

Definition candle (t : Z) (o h l c v : string) : list json :=
  [JInt t; JStr o; JStr h; JStr l; JStr c; JStr v; JInt (t + 59999);
   JStr "0"; JInt 1; JStr "0"; JStr "0"; JStr "0"].

Definition info : json :=
  JObj [("timezone", JStr "UTC");
        ("symbols", JArr [entry "BTCUSDT" "TRADING"; entry "ETHBTC" "TRADING";
                          entry "LUNAUSDT" "BREAK"; entry "ETHUSDT" "TRADING"])].

Definition btc : list (list json) :=
  [candle 1700000000000 "1" "2" "0" "1" "10";
   candle 1700000060000 "1" "3" "1" "2" "11"].

Definition eth : list (list json) :=
  [candle 1700000000000 "5" "6" "4" "5" "20";
   candle 1700000060000 "5" "7" "5" "6" "21";
   candle 1700000120000 "6" "8" "6" "7" "22"].

Definition klines_url (symbol tf : string) (limit : Z) : string :=
  "https://api.binance.com/api/v3/klines?symbol=" ++ symbol
  ++ "&interval=" ++ tf ++ "&limit=" ++ Py.str_of_int limit.

(** A frozen exchange that lists the pairs of [info] and knows the candles
    of BTCUSDT and ETHUSDT for [tf] and [limit]. *)
Definition exchange (tf : string) (limit : Z) : Source :=
  fun _ url =>
    if String.eqb url "https://api.binance.com/api/v3/exchangeInfo"
    then inr info
    else if String.eqb url (klines_url "BTCUSDT" tf limit)
    then inr (JArr (map JArr btc))
    else if String.eqb url (klines_url "ETHUSDT" tf limit)
    then inr (JArr (map JArr eth))
    else inl (ClientError "Cannot connect to host").

(** pandas on undocumented inputs, for the runs below: it raises. *)
Definition no_rows : json -> result (list (list cell)) := fun _ => inl ValueError.
Definition no_stamp : cell -> result cell := fun _ => inl ValueError.

Definition fresh : World := mkWorld [] 0 None.

(** The same exchange with the candles of ETHUSDT out of reach. *)
Definition exchange_eth_down (tf : string) (limit : Z) : Source :=
  fun _ url =>
    if String.eqb url "https://api.binance.com/api/v3/exchangeInfo"
    then inr info
    else if String.eqb url (klines_url "BTCUSDT" tf limit)
    then inr (JArr (map JArr btc))
    else inl (ClientError "Server disconnected").

(** Candles of which the second lacks its last field. *)
Definition ragged : list (list json) :=
  [candle 1700000000000 "1" "2" "0" "1" "10";
   removelast (candle 1700000060000 "1" "3" "1" "2" "11")].

Definition exchange_ragged (tf : string) (limit : Z) : Source :=
  fun _ url =>
    if String.eqb url "https://api.binance.com/api/v3/exchangeInfo"
    then inr info
    else inr (JArr (map JArr ragged)).

(** An instrument list with an entry that has no status. *)
Definition info_no_status : json :=
  JObj [("symbols", JArr [JObj [("symbol", JStr "ETHBTC")];
                          entry "BTCUSDT" "TRADING"])].

(** Both options given on the command line; the prompts are not reached. *)
Definition options (tf : string) (limit : Z) : Args :=
  mkArgs (Some limit) (Some tf).

Definition no_console : Console := mkConsole (inl EOFError) (inl EOFError).

(** An exchange that cannot be reached at all. *)
Definition exchange_down : Source :=
  fun _ _ => inl (ClientError "Cannot connect to host").

(** A world where a file of an earlier run exists. *)
Definition stale : World :=
  mkWorld [] 0 (Some (mkTable ["Open time"; "Open"] [[Timestamp 0; Val (JStr "1")]])).

(** The state of a scraper just built, before [scrape]. *)
Definition built (tf : string) (limit : Z) : State :=
  mkState (init tf limit) fresh.

(** A run for one-minute candles, five per symbol, in which the second
    fetch completes first. *)
Definition run : result unit * World :=
  main no_rows no_stamp (exchange "1m" 5) [1%nat; 0%nat] (options "1m" 5)
       no_console fresh.

(** The same run against the exchange that has lost ETHUSDT. *)
Definition run_eth_down : result unit * World :=
  main no_rows no_stamp (exchange_eth_down "1m" 5) [1%nat; 0%nat]
       (options "1m" 5) no_console fresh.

(** A run with a timeframe and a limit outside what the help text allows. *)
Definition run_unchecked : result unit * World :=
  main no_rows no_stamp (exchange "7x" 5000) [] (options "7x" 5000)
       no_console fresh.

End Sample.


(** * The vocabulary of the properties

    Names for what the statements below talk about: the request a task
    makes, the frame it returns, the records a run writes. *)

(** An entry of the instrument list that the catalog has to return under the
    name [s]: its identifier is [s], [s] ends with USDT, and its status is
    TRADING. *)
Definition listed (entry : json) (s : string) : Prop :=
  Py.getitem entry "symbol" = inr (JStr s)
  /\ (exists p, s = (p ++ "USDT")%string)
  /\ Py.getitem entry "status" = inr (JStr "TRADING").

(** An entry as the exchange documents it: an identifier that is a string,
    and a status. *)
Definition documented (entry : json) : Prop :=
  exists ident status,
    Py.getitem entry "symbol" = inr (JStr ident)
    /\ Py.getitem entry "status" = inr status.

(** The request [get_historical_data] formats from [self.params]. *)
Definition endpoint (p : Params) (symbol : string) : string :=
  ("https://api.binance.com/api/v3/klines?symbol=" ++ symbol
   ++ "&interval=" ++ tf p ++ "&limit=" ++ Py.str_of_int (limit p))%string.

(** The state after [n] more tasks have advanced the progress bar. *)
Definition advance (n : nat) (st : State) : State :=
  mkState (self st)
    (mkWorld (sent (world st)) (pbar (world st) + n) (disk (world st))).

(** The state after the requests [urls] have been issued. *)
Definition requested (urls : list string) (st : State) : State :=
  mkState (self st)
    (mkWorld (sent (world st) ++ urls) (pbar (world st)) (disk (world st))).

(** The frame a task returns for the answer its request got. *)
Definition symbol_frame (irr : json -> result (list (list cell)))
    (symbol : string) (answer : result json)
  : result DataFrame :=
  match answer with
  | inl e => inl e
  | inr response =>
      match DataFrame_of irr response kline_columns with
      | inl e => inl e
      | inr df => inr (pd.setitem_scalar df "Symbol" (Val (JStr symbol)))
      end
  end.

Definition idx (t : InFlight) : nat := fst (fst t).

(** The tasks [ensure_futures] creates when [k] requests have gone out
    before and the first task is the [i]-th. *)
Fixpoint tasks_of (source : Source) (p : Params) (k i : nat)
    (symbols : list string) : list InFlight :=
  match symbols with
  | [] => []
  | symbol :: rest =>
      (i, symbol, source k (endpoint p symbol))
      :: tasks_of source p (S k) (S i) rest
  end.

Definition task_frame (irr : json -> result (list (list cell)))
    (t : InFlight) : result DataFrame :=
  symbol_frame irr (snd (fst t)) (snd t).

Definition returns (irr : json -> result (list (list cell)))
    (t : InFlight) (df : DataFrame) : Prop :=
  task_frame irr t = inr df.

(** The columns of a frame a task returns, and those of the table written. *)
Definition tagged_columns : list string := kline_columns ++ ["Symbol"].

Definition output_columns : list string :=
  ["Open"; "High"; "Low"; "Close"; "Volume"; "Symbol"].

(** The cells of a tagged row that reach the file, after the index. *)
Definition kept (row : list cell) : list cell :=
  [nth 1 row NaN; nth 2 row NaN; nth 3 row NaN; nth 4 row NaN; nth 5 row NaN;
   nth 12 row NaN].

(** A frame as the tasks return them. *)
Definition shaped (df : DataFrame) : Prop :=
  index df = None /\ columns df = tagged_columns
  /\ Forall (fun row => length row = 13%nat) (rows df).

(** [scrape_assemble] on the frame alone: what follows the concatenation,
    and the whole. *)
Definition finish (tdo : cell -> result cell) (m : DataFrame)
  : result DataFrame :=
  match pd.getitem m "Open time" with
  | inl e => inl e
  | inr opens =>
  match to_datetime tdo opens with
  | inl e => inl e
  | inr t1 =>
  let m1 := pd.setitem m "Open time" t1 in
  match pd.getitem m1 "Close time" with
  | inl e => inl e
  | inr closes =>
  match to_datetime tdo closes with
  | inl e => inl e
  | inr t2 =>
  let m2 := pd.setitem m1 "Close time" t2 in
  match pd.set_index m2 "Open time" with
  | inl e => inl e
  | inr m3 => pd.drop m3 dropped_columns
  end end end end end.

Definition assemble (tdo : cell -> result cell) (results : list DataFrame)
    (acc : DataFrame) : result DataFrame :=
  finish tdo (fold_left pd.concat results acc).

Ltac explode r H :=
  do 13 (destruct r as [|? r]; [discriminate H|]);
  destruct r; [clear H|discriminate H].

Definition index_columns : list string :=
  pd.without ["Open time"] tagged_columns.

Definition catalog_url : string := "https://api.binance.com/api/v3/exchangeInfo".

(** The catalog snapshot taken at the start of a run in world [w]. *)
Definition catalog (source : Source) (w : World) : result (list string) :=
  match source (length (sent w)) catalog_url with
  | inl e => inl e
  | inr response => list_symbols response
  end.

(** The tagged rows of the series, series after series. *)
Definition candles (results : list DataFrame) : list (list cell) :=
  concat (map rows results).

(** [pd.to_datetime] on a cell it converts. *)
Definition stamp (tdo : cell -> result cell) (c : cell) : cell :=
  match to_datetime_cell tdo c with
  | inr t => t
  | inl _ => NaT
  end.

Definition converts (tdo : cell -> result cell) (c : cell) : Prop :=
  exists t, to_datetime_cell tdo c = inr t.

(** The record written for a tagged row. *)
Definition written (tdo : cell -> result cell) (row : list cell) : list cell :=
  stamp tdo (nth 0 row NaN) :: kept row.

(** The Symbol field of a written record. *)
Definition symbol_cell (record : list cell) : cell := nth 6 record NaN.

(** The world a run that completes leaves behind. *)
Definition completed (tdo : cell -> result cell) (w : World) (p : Params) (symbols : list string)
    (results : list DataFrame) : World :=
  mkWorld (sent w ++ catalog_url :: map (endpoint p) symbols)
    (pbar w + length symbols)
    (Some (mkTable ("Open time" :: output_columns)
             (map (written tdo) (candles results)))).

(** The failures that end a run before any candle is asked for: a prompt
    that raises, or a catalog that cannot be read. *)
Definition fatal (source : Source) (args : Args) (console : Console) (w : World) (e : exn)
  : Prop :=
  cli_limit args console = inl e
  \/ (exists limit, cli_limit args console = inr limit
                    /\ cli_tf args console = inl e)
  \/ (exists limit tf, cli_limit args console = inr limit
                       /\ cli_tf args console = inr tf
                       /\ catalog source w = inl e).

(** * The vocabulary of the further properties *)

(** The exchange answers the candle requests of [symbols], the first of
    which is the [k]-th request of the run, with the arrays of arrays
    [datas], one per symbol. *)
Fixpoint answers_of (source : Source) (p : Params) (k : nat)
    (symbols : list string) (datas : list (list (list json))) : Prop :=
  match symbols, datas with
  | [], [] => True
  | symbol :: symbols', data :: datas' =>
      source k (endpoint p symbol) = inr (JArr (map JArr data))
      /\ answers_of source p (S k) symbols' datas'
  | _, _ => False
  end.

(** An answer [pd.DataFrame] accepts under the 12 column names: no row at
    all, or a longest row of 12 fields. *)
Definition constructible (data : list (list json)) : Prop :=
  data = [] \/ pd.width data = 12%nat.

(** The field an answered row has under the [j]-th column, [null] when the
    row is too short to have one; and the fields an answer has under that
    column, row after row. *)
Definition field (r : list json) (j : nat) : json := nth j r JNull.

Definition fields (data : list (list json)) (j : nat) : list json :=
  map (fun r => field r j) data.

Definition is_null (f : json) : Prop := f = JNull.

Definition is_int (f : json) : Prop := exists z, f = JInt z.

Definition is_int64 (f : json) : Prop :=
  exists z, f = JInt z /\ (pd.int64_min <= z <= pd.int64_max)%Z.

Definition is_str (f : json) : Prop := exists s, f = JStr s.

(** The float a field is held as in a column of floats. *)
Definition as_float (f : json) : cell :=
  match f with
  | JInt z => Float z
  | _ => NaN
  end.

(** The fields [col] of a column keep their values: none of them is
    missing, or one of them is neither an integer nor missing, or all of
    them are missing. *)
Definition keeps_values (col : list json) : Prop :=
  Forall (fun g => ~ is_null g) col
  \/ Exists (fun g => ~ is_null g /\ ~ is_int g) col
  \/ Forall is_null col.

(** The fields [col] of a column are held as floats: they are 64-bit
    integers and missing fields, at least one of each. *)
Definition held_as_floats (col : list json) : Prop :=
  Forall (fun g => is_null g \/ is_int64 g) col
  /\ Exists is_null col /\ Exists is_int col.

(** The cell [c] a fetch returns for the field [f] of a column whose
    fields are [col]. *)
Definition typed (col : list json) (f : json) (c : cell) : Prop :=
  (keeps_values col -> c = Val f)
  /\ (held_as_floats col -> c = as_float f).

(** The row a fetch for [symbol] returns for the row [r] of the answer
    [data]. *)
Definition fetched_row (symbol : string) (data : list (list json))
    (r : list json) (row : list cell) : Prop :=
  length row = 13%nat
  /\ nth 12 row NaN = Val (JStr symbol)
  /\ forall j, j < 12 -> typed (fields data j) (field r j) (nth j row NaN).

(** The frame a fetch for [symbol] returns for the answer [data]. *)
Definition fetched (symbol : string) (data : list (list json))
    (df : DataFrame) : Prop :=
  index df = None
  /\ columns df = kline_columns ++ ["Symbol"]
  /\ Forall2 (fetched_row symbol data) data (rows df).

(** The frames the fetches for [symbols] return for the answers [datas]. *)
Fixpoint all_fetched (symbols : list string) (datas : list (list (list json)))
    (results : list DataFrame) : Prop :=
  match symbols, datas, results with
  | [], [], [] => True
  | symbol :: symbols', data :: datas', df :: results' =>
      fetched symbol data df /\ all_fetched symbols' datas' results'
  | _, _, _ => False
  end.

(** The row and the frame for an answer whose columns all keep their
    values: the fields of an answered row, the missing trailing ones as
    [None], and the symbol last. *)
Definition tagged_row (symbol : string) (r : list json) : list cell :=
  map Val r ++ repeat (Val JNull) (12 - length r) ++ [Val (JStr symbol)].

Definition tagged_rows (symbol : string) (data : list (list json))
  : list (list cell) :=
  map (tagged_row symbol) data.

Definition tagged_frame (symbol : string) (data : list (list json))
  : DataFrame :=
  mkFrame None tagged_columns (tagged_rows symbol data).

(** A candle as the exchange documents it, as far as it reaches the file:
    12 fields, the open time and the close time integers that a timestamp
    can hold, and the open, high, low and close prices and the volume
    decimal strings. *)
Definition candle_ok (r : list json) : Prop :=
  length r = 12%nat
  /\ (exists t c,
        nth 0 r JNull = JInt t /\ nth 6 r JNull = JInt c
        /\ in_bounds t = true /\ in_bounds c = true)
  /\ (forall j, 1 <= j <= 5 -> is_str (nth j r JNull)).

(** The record of the file for such a candle of [symbol]. *)
Definition record_of (symbol : string) (r : list json) : list cell :=
  [match nth 0 r JNull with JInt t => Timestamp t | _ => NaT end;
   Val (nth 1 r JNull); Val (nth 2 r JNull); Val (nth 3 r JNull);
   Val (nth 4 r JNull); Val (nth 5 r JNull); Val (JStr symbol)].

Definition output_header : list string :=
  ["Open time"; "Open"; "High"; "Low"; "Close"; "Volume"; "Symbol"].

(** [selects entries symbols]: [symbols] are the identifiers of the listed
    entries of [entries], in the order of [entries], one per listed entry. *)
Inductive selects : list json -> list string -> Prop :=
| selects_nil : selects [] []
| selects_keep entry s entries symbols :
    listed entry s -> selects entries symbols ->
    selects (entry :: entries) (s :: symbols)
| selects_skip entry entries symbols :
    (forall s, ~ listed entry s) -> selects entries symbols ->
    selects (entry :: entries) symbols.

(** ** Further sample exchanges *)

Module Cases.

(** An exchange that lists no pair quoted in USDT. *)
Definition info_no_usdt : json :=
  JObj [("symbols", JArr [Sample.entry "ETHBTC" "TRADING";
                          Sample.entry "LUNAUSDT" "BREAK"])].

Definition exchange_no_usdt : Source :=
  fun _ url =>
    if String.eqb url "https://api.binance.com/api/v3/exchangeInfo"
    then inr info_no_usdt
    else inl (ClientError "Cannot connect to host").

(** An exchange that lists the pairs of [Sample.info] and has no candle for
    any of them. *)
Definition exchange_quiet : Source :=
  fun _ url =>
    if String.eqb url "https://api.binance.com/api/v3/exchangeInfo"
    then inr Sample.info
    else inr (JArr []).

(** Candles of which the second carries a close time that is no number. *)
Definition odd_close : list (list json) :=
  [Sample.candle 1700000000000 "1" "2" "0" "1" "10";
   [JInt 1700000060000; JStr "1"; JStr "3"; JStr "1"; JStr "2"; JStr "11";
    JStr "soon"; JStr "0"; JInt 1; JStr "0"; JStr "0"; JStr "0"]].

Definition exchange_odd_close : Source :=
  fun _ url =>
    if String.eqb url "https://api.binance.com/api/v3/exchangeInfo"
    then inr Sample.info
    else inr (JArr (map JArr odd_close)).

(** Candles of which the second has no number of trades. *)
Definition gapped : list (list json) :=
  [Sample.candle 1700000000000 "1" "2" "0" "1" "10";
   [JInt 1700000060000; JStr "1"; JStr "3"; JStr "1"; JStr "2"; JStr "11";
    JInt 1700000119999; JStr "0"; JNull; JStr "0"; JStr "0"; JStr "0"]].

Definition exchange_gapped : Source :=
  fun _ url =>
    if String.eqb url "https://api.binance.com/api/v3/exchangeInfo"
    then inr Sample.info
    else inr (JArr (map JArr gapped)).

(** A world where two requests have gone out, the bar stands at 7 and a
    file exists. *)
Definition used : World :=
  mkWorld ["https://example.org/a"; "https://example.org/b"] 7
          (disk Sample.stale).

End Cases.

(** * Properties *)

(** ** The symbol catalog *)

Lemma str_endswith_unfold (s suffix : string) :
  Py.str_endswith s suffix =
  if String.eqb s suffix then true
  else match s with
       | EmptyString => false
       | String _ rest => Py.str_endswith rest suffix
       end.
Proof. destruct s; reflexivity. Qed.

Lemma str_endswith_spec (s suffix : string) :
  Py.str_endswith s suffix = true <-> exists p, s = (p ++ suffix)%string.
Proof.
  induction s as [|a s IH]; rewrite str_endswith_unfold.
  - destruct (String.eqb_spec EmptyString suffix) as [E|N]; split; intros H; try easy.
    + exists EmptyString; exact E.
    + destruct H as [p Hp]. destruct p; simpl in Hp; [congruence | discriminate].
  - destruct (String.eqb_spec (String a s) suffix) as [E|N]; split; intros H; try easy.
    + exists EmptyString; exact E.
    + apply IH in H. destruct H as [p Hp]. exists (String a p). simpl; congruence.
    + apply IH. destruct H as [p Hp]. destruct p as [|b p]; simpl in Hp.
      * congruence.
      * exists p. congruence.
Qed.

Lemma eq_str_spec (j : json) (lit : string) :
  Py.eq_str j lit = true <-> j = JStr lit.
Proof.
  destruct j; simpl; split; intros H; try discriminate.
  - apply String.eqb_eq in H. congruence.
  - injection H as ->. apply String.eqb_refl.
Qed.

Lemma keep_symbol_some (entry : json) (s : string) :
  keep_symbol entry = inr (Some s) <-> listed entry s.
Proof.
  unfold keep_symbol, listed. split.
  - destruct (Py.getitem entry "symbol") as [e|ident]; [discriminate|].
    destruct ident; simpl; try discriminate.
    destruct (Py.str_endswith s0 "USDT") eqn:Hend; [|discriminate].
    destruct (Py.getitem entry "status") as [e|status]; [discriminate|].
    destruct (Py.eq_str status "TRADING") eqn:Heq; [|discriminate].
    intros [= ->]. apply eq_str_spec in Heq. subst status.
    repeat split. now apply str_endswith_spec.
  - intros (Hid & Hend & Hst). rewrite Hid. simpl.
    apply str_endswith_spec in Hend. rewrite Hend, Hst. reflexivity.
Qed.

Lemma keep_symbol_documented (entry : json) :
  documented entry -> exists kept, keep_symbol entry = inr kept.
Proof.
  intros (ident & status & Hid & Hst). unfold keep_symbol.
  rewrite Hid. simpl. destruct (Py.str_endswith ident "USDT"); [|eauto].
  rewrite Hst. destruct (Py.eq_str status "TRADING"); eauto.
Qed.

Lemma comprehension_In (entries : list json) :
  forall symbols, comprehension entries = inr symbols ->
  forall s, In s symbols <-> exists entry, In entry entries /\ listed entry s.
Proof.
  induction entries as [|entry rest IH]; simpl; intros symbols H s.
  - injection H as <-. split; [intros [] | intros (? & [] & _)].
  - destruct (keep_symbol entry) as [e|kept] eqn:Hk; [discriminate|].
    destruct (comprehension rest) as [e|tail]; [discriminate|].
    injection H as <-. specialize (IH tail eq_refl s).
    assert (Hhere : forall s', listed entry s' -> kept = Some s').
    { intros s' Hl. apply keep_symbol_some in Hl. congruence. }
    split.
    + destruct kept as [s'|].
      * intros [<-|Hin].
        -- exists entry. split; [now left | now apply keep_symbol_some].
        -- apply IH in Hin. destruct Hin as (e' & He' & Hl). eauto.
      * intros Hin. apply IH in Hin. destruct Hin as (e' & He' & Hl). eauto.
    + intros (e' & [<-|Hin] & Hl).
      * rewrite (Hhere s Hl). now left.
      * assert (In s tail) by (apply IH; eauto).
        destruct kept; [now right | assumption].
Qed.

Lemma comprehension_total (entries : list json) :
  Forall documented entries -> exists symbols, comprehension entries = inr symbols.
Proof.
  induction 1 as [|entry rest Hd _ IH]; simpl; [eauto|].
  destruct (keep_symbol_documented entry Hd) as [kept ->].
  destruct IH as [tail ->]. eauto.
Qed.

(** C5. Whenever the catalog returns a list for an instrument list, a name
    is in it exactly when some entry has that identifier, the identifier ends
    with USDT, and the entry's status is TRADING; and it does return a list
    when the entries are as the exchange documents them. *)
Theorem catalog_exact (response : json) (entries : list json) :
  Py.getitem response "symbols" = inr (JArr entries) ->
  (Forall documented entries ->
   exists symbols, list_symbols response = inr symbols)
  /\ (forall symbols,
        list_symbols response = inr symbols ->
        forall s, In s symbols <->
                  exists entry, In entry entries /\ listed entry s).
Proof.
  intros Hget. unfold list_symbols. rewrite Hget. cbn [Py.iter]. split.
  - apply comprehension_total.
  - apply comprehension_In.
Qed.

(** ** The candle fetch *)

Lemma advance_advance (n m : nat) (st : State) :
  advance n (advance m st) = advance (m + n) st.
Proof. unfold advance; simpl. do 2 f_equal. lia. Qed.

Lemma advance_0 (st : State) : advance 0 st = st.
Proof.
  destruct st as [s [se pb dk]]. unfold advance; simpl.
  do 2 f_equal. lia.
Qed.

Section Fetch.

Variable irr : json -> result (list (list cell)).
Variable source : Source.

Lemma get_historical_data_end_eq (symbol : string) (answer : result json)
    (st : State) :
  get_historical_data_end irr symbol answer st =
  match symbol_frame irr symbol answer with
  | inl e => (inl e, st)
  | inr df => (inr df, advance 1 st)
  end.
Proof.
  unfold get_historical_data_end, symbol_frame, bind, lift.
  destruct answer as [e|response]; [reflexivity|].
  destruct (DataFrame_of irr response kline_columns); reflexivity.
Qed.

Lemma get_historical_data_begin_eq (symbol : string) (st : State) :
  get_historical_data_begin source symbol st =
  (inr (source (length (sent (world st))) (endpoint (params (self st)) symbol)),
   requested [endpoint (params (self st)) symbol] st).
Proof. reflexivity. Qed.

Lemma get_historical_data_eq (symbol : string) (st : State) :
  get_historical_data irr source symbol st =
  let url := endpoint (params (self st)) symbol in
  match symbol_frame irr symbol (source (length (sent (world st))) url) with
  | inl e => (inl e, requested [url] st)
  | inr df => (inr df, advance 1 (requested [url] st))
  end.
Proof.
  unfold get_historical_data, bind.
  rewrite get_historical_data_begin_eq, get_historical_data_end_eq.
  reflexivity.
Qed.

Lemma arrays_map_JArr (data : list (list json)) :
  arrays (map JArr data) = Some data.
Proof. induction data as [|r data IH]; simpl; [|rewrite IH]; reflexivity. Qed.

Lemma arrays_length (items : list json) (data : list (list json)) :
  arrays items = Some data -> length data = length items.
Proof.
  revert data. induction items as [|j rest IH]; simpl; intros data H.
  - now injection H as <-.
  - destruct j; try discriminate.
    destruct (arrays rest) eqn:E; [|discriminate].
    injection H as <-. simpl. f_equal. now apply IH.
Qed.

Lemma infer_length (w : nat) (rs : list (list cell)) :
  length (pd.infer w rs) = length rs.
Proof. unfold pd.infer. cbv zeta. apply length_map. Qed.

Lemma from_rows_length (data : list (list json)) (names : list string)
    (df : DataFrame) :
  pd.from_rows data names = inr df -> length (rows df) = length data.
Proof.
  unfold pd.from_rows. destruct data as [|r data].
  - now intros [= <-].
  - destruct (Nat.eqb _ _); [|discriminate].
    intros [= <-]. cbn [rows]. rewrite infer_length. cbn [map length].
    f_equal. apply length_map.
Qed.

Lemma setitem_scalar_length (df : DataFrame) (name : string) (v : cell) :
  length (rows (pd.setitem_scalar df name v)) = length (rows df).
Proof. unfold pd.setitem_scalar; simpl. apply length_map. Qed.

End Fetch.

(** C7. A candle fetch that succeeds on an answer that is an array of at
    most [limit] arrays returns a series of at most [limit] rows: the series
    has one row per array of the answer. *)
Theorem series_within_limit (irr : json -> result (list (list cell)))
    (source : Source) (symbol : string) (st st' : State)
    (data : list (list json)) (df : DataFrame) :
  source (length (sent (world st))) (endpoint (params (self st)) symbol)
    = inr (JArr (map JArr data)) ->
  (Z.of_nat (length data) <= limit (params (self st)))%Z ->
  get_historical_data irr source symbol st = (inr df, st') ->
  length (rows df) = length data
  /\ (Z.of_nat (length (rows df)) <= limit (params (self st)))%Z.
Proof.
  intros Hanswer Hlimit Hrun.
  rewrite get_historical_data_eq in Hrun. cbv zeta in Hrun.
  rewrite Hanswer in Hrun. unfold symbol_frame, DataFrame_of in Hrun.
  rewrite arrays_map_JArr in Hrun.
  destruct (pd.from_rows data kline_columns) as [e|frame] eqn:Hframe;
    [discriminate|].
  injection Hrun as <- _.
  rewrite setitem_scalar_length, (from_rows_length _ _ _ Hframe).
  split; [reflexivity | exact Hlimit].
Qed.

(** C9. Against a frozen data source, two candle fetches for the same symbol
    by scrapers with the same timeframe and limit return the same result,
    whatever else differs between the two states they start in. *)
Theorem fetch_deterministic (irr : json -> result (list (list cell)))
    (source : Source) (symbol : string) (st1 st2 : State) :
  frozen source ->
  params (self st1) = params (self st2) ->
  fst (get_historical_data irr source symbol st1)
  = fst (get_historical_data irr source symbol st2).
Proof.
  intros Hfrozen Hparams. rewrite !get_historical_data_eq. cbv zeta.
  rewrite Hparams.
  rewrite (Hfrozen (length (sent (world st1))) (length (sent (world st2)))).
  destruct (symbol_frame irr symbol _); reflexivity.
Qed.

(** ** The fan-out and the fan-in *)

Section Gather.

Variable irr : json -> result (list (list cell)).

Lemma ensure_futures_eq (source : Source) (symbols : list string) :
  forall i st,
    ensure_futures source i symbols st =
    (inr (tasks_of source (params (self st)) (length (sent (world st))) i symbols),
     requested (map (endpoint (params (self st))) symbols) st).
Proof.
  induction symbols as [|symbol rest IH]; intros i st.
  - simpl. unfold ret, requested. rewrite app_nil_r.
    destruct st as [s [se pb dk]]; reflexivity.
  - cbn [ensure_futures tasks_of map]. unfold bind.
    rewrite get_historical_data_begin_eq, IH. unfold ret, requested; simpl.
    rewrite length_app, Nat.add_1_r, <- app_assoc. reflexivity.
Qed.

Lemma tasks_of_idx (source : Source) (p : Params) (symbols : list string) :
  forall k i, idx <$> tasks_of source p k i symbols = seq i (length symbols).
Proof.
  induction symbols as [|s rest IH]; intros k i; simpl; [reflexivity|].
  now rewrite IH.
Qed.

Lemma tasks_of_length (source : Source) (p : Params) (symbols : list string) :
  forall k i, length (tasks_of source p k i symbols) = length symbols.
Proof.
  induction symbols as [|s rest IH]; intros k i; simpl; [reflexivity|].
  now rewrite IH.
Qed.

Lemma gather_loop_world (schedule : list nat) (n : nat) :
  forall step pending slots st,
    self (snd (gather_loop irr schedule n step pending slots st)) = self st
    /\ sent (world (snd (gather_loop irr schedule n step pending slots st)))
       = sent (world st)
    /\ disk (world (snd (gather_loop irr schedule n step pending slots st)))
       = disk (world st).
Proof.
  induction n as [|n IH]; intros step pending slots st; simpl; [easy|].
  destruct (pending !! _) as [[[i symbol] answer]|]; [|easy].
  unfold bind. rewrite get_historical_data_end_eq.
  destruct (symbol_frame irr symbol answer) as [e|df]; [easy|].
  destruct (IH (S step) (delete (nth step schedule 0 mod length pending)%nat pending)
               (<[i:=Some df]> slots) (advance 1 st)) as (H1 & H2 & H3).
  rewrite H1, H2, H3. easy.
Qed.

(** A run of [gather_loop] that returns: every pending task returned a
    frame, the frame sits in the task's slot, and the other slots are as
    they were. *)
Lemma gather_loop_ok (schedule : list nat) (n : nat) :
  forall step pending slots st res st',
    length pending = n ->
    NoDup (idx <$> pending) ->
    gather_loop irr schedule n step pending slots st = (inr res, st') ->
    st' = advance n st
    /\ length res = length slots
    /\ (forall t, t ∈ pending ->
          exists df, returns irr t df
                     /\ (idx t < length slots -> res !! idx t = Some (Some df)))
    /\ (forall j, j ∉ (idx <$> pending) -> res !! j = slots !! j).
Proof.
  induction n as [|n IH]; intros step pending slots st res st' Hlen Hnd Hrun.
  - destruct pending; [|discriminate]. simpl in Hrun. injection Hrun as <- <-.
    rewrite advance_0. repeat split; try easy; intros t Ht; inversion Ht.
  - cbn [gather_loop] in Hrun.
    set (k := (nth step schedule 0 mod length pending)%nat) in *.
    assert (Hk : k < length pending).
    { subst k. apply Nat.mod_upper_bound. lia. }
    clearbody k.
    destruct (pending !! k) as [[[i symbol] answer]|] eqn:Hat;
      [|apply lookup_ge_None_1 in Hat; unfold InFlight in *; lia].
    unfold bind in Hrun.
    rewrite get_historical_data_end_eq in Hrun.
    destruct (symbol_frame irr symbol answer) as [e|df] eqn:Hframe;
      [discriminate|].
    pose proof (take_drop_middle pending k _ Hat) as Hsplit.
    rewrite delete_take_drop in Hrun.
    rewrite <- Hsplit in Hnd. rewrite fmap_app, fmap_cons in Hnd.
    apply NoDup_app in Hnd. destruct Hnd as (Hnd1 & Hcross & Hnd2).
    apply NoDup_cons in Hnd2. destruct Hnd2 as [Hfresh Hnd2]. simpl in *.
    assert (Hrest : i ∉ idx <$> (take k pending ++ drop (S k) pending)).
    { rewrite fmap_app, elem_of_app. intros [Hin|Hin]; [|easy].
      apply (Hcross i Hin). left. }
    apply IH in Hrun.
    + destruct Hrun as (-> & Hl & Hin & Hout). rewrite length_insert in Hl.
      split; [rewrite advance_advance; reflexivity|].
      split; [exact Hl|]. split.
      * intros t Ht. rewrite <- Hsplit in Ht.
        apply elem_of_app in Ht. rewrite elem_of_cons in Ht.
        assert (Hcases : t = (i, symbol, answer)
                         \/ t ∈ take k pending ++ drop (S k) pending).
        { rewrite elem_of_app. tauto. }
        destruct Hcases as [-> | Ht'].
        -- exists df. split; [exact Hframe|]. intros Hi. change (idx (i, symbol, answer)) with i in *.
           rewrite (Hout i Hrest). now apply list_lookup_insert_eq.
        -- destruct (Hin t Ht') as (df' & Hret & Hslot). exists df'.
           split; [exact Hret|]. intros Hi. apply Hslot.
           now rewrite length_insert.
      * intros j Hj. rewrite <- Hsplit, fmap_app, fmap_cons in Hj. simpl in Hj.
        rewrite elem_of_app, elem_of_cons in Hj.
        rewrite Hout.
        -- apply list_lookup_insert_ne. intros ->. tauto.
        -- rewrite fmap_app, elem_of_app. tauto.
    + rewrite length_app, length_take, length_drop. lia.
    + rewrite fmap_app. apply NoDup_app. repeat split; try assumption.
      intros x Hx1 Hx2. apply (Hcross x Hx1). now right.
Qed.

(** [gather_loop] returns when every pending task returns a frame. *)
Lemma gather_loop_total (schedule : list nat) (n : nat) :
  forall step pending slots st,
    length pending = n ->
    (forall t, t ∈ pending -> exists df, returns irr t df) ->
    exists res,
      gather_loop irr schedule n step pending slots st = (inr res, advance n st).
Proof.
  induction n as [|n IH]; intros step pending slots st Hlen Hall.
  - simpl. rewrite advance_0. eauto.
  - cbn [gather_loop].
    set (k := (nth step schedule 0 mod length pending)%nat) in *.
    assert (Hk : k < length pending).
    { subst k. apply Nat.mod_upper_bound. lia. }
    clearbody k.
    destruct (pending !! k) as [[[i symbol] answer]|] eqn:Hat;
      [|apply lookup_ge_None_1 in Hat; unfold InFlight in *; lia].
    unfold bind. rewrite get_historical_data_end_eq.
    destruct (Hall _ (list_elem_of_lookup_2 _ _ _ Hat)) as [df Hdf].
    unfold returns, task_frame in Hdf. simpl in Hdf. rewrite Hdf.
    destruct (IH (S step) (delete k pending) (<[i:=Some df]> slots)
                 (advance 1 st)) as [res Hres].
    + rewrite length_delete by (eexists; exact Hat). unfold InFlight in *; lia.
    + intros t Ht. apply Hall. eapply list_elem_of_delete_inv, Ht.
    + exists res. rewrite Hres, advance_advance. reflexivity.
Qed.

(** [gather_loop] raises when some pending task raises. *)
Lemma gather_loop_raises (schedule : list nat) (n : nat) :
  forall step pending slots st t e,
    length pending = n ->
    t ∈ pending -> task_frame irr t = inl e ->
    exists e' st',
      gather_loop irr schedule n step pending slots st = (inl e', st').
Proof.
  induction n as [|n IH]; intros step pending slots st t e Hlen Ht Hfail.
  - destruct pending; [inversion Ht | discriminate].
  - cbn [gather_loop].
    set (k := (nth step schedule 0 mod length pending)%nat) in *.
    assert (Hk : k < length pending).
    { subst k. apply Nat.mod_upper_bound. lia. }
    clearbody k.
    destruct (pending !! k) as [[[i symbol] answer]|] eqn:Hat;
      [|apply lookup_ge_None_1 in Hat; unfold InFlight in *; lia].
    unfold bind. rewrite get_historical_data_end_eq.
    destruct (symbol_frame irr symbol answer) as [e0|df] eqn:Hframe; [eauto|].
    apply (IH _ _ _ _ t e).
    + rewrite length_delete by (eexists; exact Hat). unfold InFlight in *; lia.
    + pose proof (take_drop_middle pending k _ Hat) as Hsplit.
      rewrite <- Hsplit in Ht. rewrite delete_take_drop.
      rewrite elem_of_app, elem_of_cons in Ht. rewrite elem_of_app.
      destruct Ht as [Ht | [-> | Ht]]; [tauto | | tauto].
      unfold task_frame in Hfail. simpl in Hfail. congruence.
    + exact Hfail.
Qed.

End Gather.

Section FanIn.

Variable irr : json -> result (list (list cell)).

Lemma returns_all (tasks : list InFlight) :
  (forall t, t ∈ tasks -> exists df, returns irr t df) ->
  exists dfs, Forall2 (returns irr) tasks dfs.
Proof.
  induction tasks as [|t tasks IH]; intros Hall.
  - exists []. constructor.
  - destruct (Hall t) as [df Hdf]; [left|].
    destruct IH as [dfs Hdfs]; [intros t' Ht'; apply Hall; now right|].
    exists (df :: dfs). now constructor.
Qed.

Lemma omap_id_Some {A} (l : list A) : omap id (Some <$> l) = l.
Proof. induction l as [|x l IH]; [reflexivity|]. cbn. f_equal. exact IH. Qed.

(** Slots filled task by task read, in the order of the tasks, as the list
    of the frames the tasks returned. *)
Lemma slots_collect (tasks : list InFlight) (res : list (option DataFrame))
    (results : list DataFrame) :
  idx <$> tasks = seq 0 (length tasks) ->
  length res = length tasks ->
  (forall t, t ∈ tasks ->
     exists df, returns irr t df
                /\ (idx t < length tasks -> res !! idx t = Some (Some df))) ->
  Forall2 (returns irr) tasks results ->
  omap id res = results.
Proof.
  intros Hidx Hlen Hslots Hres.
  rewrite <- (omap_id_Some results). f_equal.
  apply list_eq. intros j. rewrite list_lookup_fmap.
  destruct (decide (j < length tasks)) as [Hj|Hj].
  - destruct (lookup_lt_is_Some_2 tasks j Hj) as [t Ht].
    assert (Hit : idx t = j).
    { assert (Hl : (idx <$> tasks) !! j = Some (idx t))
        by (rewrite list_lookup_fmap, Ht; reflexivity).
      rewrite Hidx, lookup_seq_lt in Hl by exact Hj.
      injection Hl as Hl. lia. }
    destruct (Forall2_lookup_l _ _ _ _ _ Hres Ht) as (df' & Hdf' & Hret').
    destruct (Hslots t (list_elem_of_lookup_2 _ _ _ Ht)) as (df & Hret & Hslot).
    rewrite Hit in Hslot. rewrite (Hslot Hj), Hdf'. simpl.
    unfold returns in *. congruence.
  - rewrite (lookup_ge_None_2 res j) by lia.
    rewrite (lookup_ge_None_2 results j); [reflexivity|].
    rewrite <- (Forall2_length _ _ _ Hres). lia.
Qed.

(** [gather] returns exactly when every task returns, and then its results
    are the tasks' frames in the order of the tasks, whatever the schedule. *)
Lemma gather_iff (schedule : list nat) (tasks : list InFlight)
    (results : list DataFrame) (st st' : State) :
  idx <$> tasks = seq 0 (length tasks) ->
  gather irr schedule tasks st = (inr results, st')
  <-> Forall2 (returns irr) tasks results /\ st' = advance (length tasks) st.
Proof.
  intros Hidx.
  assert (Hnd : NoDup (idx <$> tasks)) by (rewrite Hidx; apply NoDup_seq).
  assert (Hback : forall dfs, Forall2 (returns irr) tasks dfs ->
            gather irr schedule tasks st = (inr dfs, advance (length tasks) st)).
  { intros dfs Hdfs.
    destruct (gather_loop_total irr schedule (length tasks) 0 tasks
                (replicate (length tasks) None) st eq_refl) as [res Hres].
    { intros t Ht. apply list_elem_of_lookup_1 in Ht. destruct Ht as [j Hj].
      destruct (Forall2_lookup_l _ _ _ _ _ Hdfs Hj) as (df & _ & Hdf). eauto. }
    unfold gather, bind. rewrite Hres. unfold ret. f_equal. f_equal.
    apply gather_loop_ok in Hres; [|reflexivity|exact Hnd].
    destruct Hres as (_ & Hl & Hin & _). rewrite length_replicate in Hl.
    apply (slots_collect tasks); try assumption.
    intros t Ht. destruct (Hin t Ht) as (df & Hret & Hslot).
    exists df. split; [exact Hret|]. intros Hi. apply Hslot.
    now rewrite length_replicate. }
  split.
  - intros Hrun. pose proof Hrun as Hrun'. unfold gather, bind in Hrun'.
    destruct (gather_loop irr schedule (length tasks) 0 tasks
                (replicate (length tasks) None) st) as [[e|res] st1] eqn:Hloop;
      [discriminate|].
    apply gather_loop_ok in Hloop; [|reflexivity|exact Hnd].
    destruct Hloop as (_ & _ & Hin & _).
    destruct (returns_all tasks) as [dfs Hdfs].
    { intros t Ht. destruct (Hin t Ht) as (df & Hret & _). eauto. }
    rewrite (Hback dfs Hdfs) in Hrun. injection Hrun as <- <-. easy.
  - intros [Hres ->]. now apply Hback.
Qed.

Lemma gather_world (schedule : list nat) (tasks : list InFlight) (st : State) :
  self (snd (gather irr schedule tasks st)) = self st
  /\ sent (world (snd (gather irr schedule tasks st))) = sent (world st)
  /\ disk (world (snd (gather irr schedule tasks st))) = disk (world st).
Proof.
  unfold gather, bind.
  pose proof (gather_loop_world irr schedule (length tasks) 0 tasks
                (replicate (length tasks) None) st) as H.
  destruct (gather_loop irr schedule (length tasks) 0 tasks
              (replicate (length tasks) None) st) as [[e|res] st1]; exact H.
Qed.

Lemma gather_raises (schedule : list nat) (tasks : list InFlight) (st : State)
    (t : InFlight) (e : exn) :
  t ∈ tasks -> task_frame irr t = inl e ->
  exists e' st', gather irr schedule tasks st = (inl e', st').
Proof.
  intros Ht Hfail. unfold gather, bind.
  destruct (gather_loop_raises irr schedule (length tasks) 0 tasks
              (replicate (length tasks) None) st t e eq_refl Ht Hfail)
    as (e' & st' & ->).
  eauto.
Qed.

End FanIn.

(** ** The assembly *)

Section Assembly.

Variable tdo : cell -> result cell.

Lemma to_datetime_length (series stamps : list cell) :
  to_datetime tdo series = inr stamps -> length stamps = length series.
Proof.
  revert stamps. induction series as [|c series IH]; simpl; intros stamps H.
  - now injection H as <-.
  - destruct (to_datetime_cell tdo c); [discriminate|].
    destruct (to_datetime tdo series); [discriminate|].
    injection H as <-. simpl. f_equal. now apply IH.
Qed.

Lemma concat_results_eq (results : list DataFrame) :
  forall st,
    concat_results results st =
    (inr tt,
     mkState (with_historical_data (self st)
                (fold_left pd.concat results (historical_data (self st))))
             (world st)).
Proof.
  induction results as [|r results IH]; intros st.
  - destruct st as [[u l p h] w]. reflexivity.
  - cbn [concat_results fold_left]. unfold bind, get_historical_data_attr,
      set_historical_data. rewrite IH. reflexivity.
Qed.

Lemma scrape_assemble_spec (results : list DataFrame) (st : State) :
  match assemble tdo results (historical_data (self st)) with
  | inr df =>
      scrape_assemble tdo results st =
      (inr tt,
       mkState (with_historical_data (self st) df)
         (mkWorld (sent (world st)) (pbar (world st)) (Some (pd.to_table df))))
  | inl e =>
      exists st', scrape_assemble tdo results st = (inl e, st')
                  /\ world st' = world st
  end.
Proof.
  unfold scrape_assemble, assemble, finish, bind. rewrite concat_results_eq.
  unfold convert_column, bind, get_historical_data_attr, lift,
    set_historical_data, modify_world.
  cbn [self world historical_data with_historical_data].
  set (m := fold_left pd.concat results (historical_data (self st))).
  destruct (pd.getitem m "Open time") as [e|opens]; [eauto|].
  destruct (to_datetime tdo opens) as [e|t1]; [eauto|].
  cbn [self world historical_data with_historical_data].
  destruct (pd.getitem (pd.setitem m "Open time" t1) "Close time")
    as [e|closes]; [eauto|].
  destruct (to_datetime tdo closes) as [e|t2]; [eauto|].
  cbn [self world historical_data with_historical_data].
  destruct (pd.set_index _ "Open time") as [e|m3]; [eauto|].
  cbn [self world historical_data with_historical_data].
  destruct (pd.drop m3 dropped_columns) as [e|m4]; [eauto|].
  reflexivity.
Qed.

(** *** Rows of thirteen cells through the column operations *)

Lemma reindex_tagged (row : list cell) :
  length row = 13%nat -> pd.reindex tagged_columns tagged_columns row = row.
Proof. intros H. explode row H. reflexivity. Qed.

Lemma concat_shaped (a b : DataFrame) :
  (a = pd.empty \/ shaped a) -> shaped b ->
  shaped (pd.concat a b) /\ rows (pd.concat a b) = rows a ++ rows b.
Proof.
  intros Ha (Hib & Hcb & Hrb). unfold pd.concat. rewrite Hcb.
  assert (Hmap : map (pd.reindex tagged_columns tagged_columns) (rows b) = rows b).
  { clear Hib Hcb. induction Hrb as [|r rs Hr _ IH]; cbn [map]; [reflexivity|].
    now rewrite reindex_tagged, IH. }
  destruct Ha as [-> | (Hia & Hca & Hra)].
  - change (columns pd.empty ++
            List.filter (fun c => negb (pd.has c (columns pd.empty))) tagged_columns)
      with tagged_columns.
    cbn [rows pd.empty map app]. rewrite Hmap. repeat split; assumption.
  - rewrite Hca.
    change (tagged_columns ++
            List.filter (fun c => negb (pd.has c tagged_columns)) tagged_columns)
      with tagged_columns.
    assert (Hmapa : map (pd.reindex tagged_columns tagged_columns) (rows a) = rows a).
    { clear Hia Hca. induction Hra as [|r rs Hr _ IH]; cbn [map]; [reflexivity|].
      now rewrite reindex_tagged, IH. }
    cbn [rows]. rewrite Hmap, Hmapa. repeat split; try easy.
    cbn [rows]. apply Forall_app; split; assumption.
Qed.

Lemma fold_concat_shaped (results : list DataFrame) :
  Forall shaped results ->
  forall acc, shaped acc ->
    shaped (fold_left pd.concat results acc)
    /\ rows (fold_left pd.concat results acc)
       = rows acc ++ concat (map rows results).
Proof.
  induction 1 as [|r results Hr _ IH]; intros acc Hacc; simpl.
  - now rewrite app_nil_r.
  - destruct (concat_shaped acc r (or_intror Hacc) Hr) as [Hs Hrows].
    destruct (IH _ Hs) as [Hs' Hrows']. split; [exact Hs'|].
    now rewrite Hrows', Hrows, <- app_assoc.
Qed.

Lemma merged_shaped (r : DataFrame) (results : list DataFrame) :
  Forall shaped (r :: results) ->
  fold_left pd.concat (r :: results) pd.empty
  = mkFrame None tagged_columns (concat (map rows (r :: results))).
Proof.
  intros H. inversion H as [|? ? Hr Hrest]; subst. cbn [fold_left map concat].
  destruct (concat_shaped pd.empty r (or_introl eq_refl) Hr) as [Hs Hrows].
  destruct (fold_concat_shaped results Hrest _ Hs) as [(Hi & Hc & _) Hrows'].
  rewrite Hrows in Hrows'. cbn [pd.empty rows app] in Hrows'.
  destruct (fold_left pd.concat results (pd.concat pd.empty r)) as [ix cs rs].
  cbn [index columns rows] in *. subst. reflexivity.
Qed.

Lemma getitem_tagged (ix : option (string * list cell)) (name : string)
    (rs : list (list cell)) (i : nat) :
  pd.position name tagged_columns = Some i ->
  pd.getitem (mkFrame ix tagged_columns rs) name
  = inr (map (fun r => nth i r NaN) rs).
Proof.
  intros H. unfold pd.getitem, pd.has, pd.at_col. cbn [columns rows].
  rewrite H. reflexivity.
Qed.

Lemma setitem_tagged (ix : option (string * list cell)) (name : string)
    (rs : list (list cell)) (vs : list cell) :
  pd.has name tagged_columns = true ->
  pd.setitem (mkFrame ix tagged_columns rs) name vs
  = mkFrame ix tagged_columns
      (pd.put_col tagged_columns tagged_columns name rs vs).
Proof.
  intros H. unfold pd.setitem. cbn [columns rows index]. rewrite H.
  reflexivity.
Qed.

Lemma set_index_tagged (rs : list (list cell)) :
  pd.set_index (mkFrame None tagged_columns rs) "Open time"
  = inr (mkFrame (Some ("Open time", map (fun r => nth 0 r NaN) rs))
           index_columns
           (map (pd.reindex tagged_columns index_columns) rs)).
Proof. reflexivity. Qed.

Lemma drop_indexed (ix : option (string * list cell)) (rs : list (list cell)) :
  pd.drop (mkFrame ix index_columns rs) dropped_columns
  = inr (mkFrame ix output_columns
           (map (pd.reindex index_columns output_columns) rs)).
Proof. reflexivity. Qed.

(** The two conversions leave the other columns as they were. *)
Lemma closes_after_opens (all : list (list cell)) :
  forall t1, length t1 = length all ->
    map (fun r => nth 6 r NaN)
        (pd.put_col tagged_columns tagged_columns "Open time" all t1)
    = map (fun r => nth 6 r NaN) all.
Proof.
  induction all as [|r rs IH]; intros [|a t1] Hl; try discriminate Hl;
    [reflexivity|].
  cbn [pd.put_col map]. f_equal. apply IH. simpl in Hl; lia.
Qed.

Lemma keys_after_both (all : list (list cell)) :
  forall t1 t2, length t1 = length all -> length t2 = length all ->
    map (fun r => nth 0 r NaN)
        (pd.put_col tagged_columns tagged_columns "Close time"
           (pd.put_col tagged_columns tagged_columns "Open time" all t1) t2)
    = t1.
Proof.
  induction all as [|r rs IH]; intros [|a t1] [|b t2] Hl1 Hl2;
    try discriminate Hl1; try discriminate Hl2; [reflexivity|].
  cbn [pd.put_col map]. f_equal. apply IH; simpl in Hl1, Hl2; lia.
Qed.

Lemma rows_after_both (all : list (list cell)) :
  forall t1 t2, length t1 = length all -> length t2 = length all ->
    map (pd.reindex index_columns output_columns)
      (map (pd.reindex tagged_columns index_columns)
         (pd.put_col tagged_columns tagged_columns "Close time"
            (pd.put_col tagged_columns tagged_columns "Open time" all t1) t2))
    = map kept all.
Proof.
  induction all as [|r rs IH]; intros [|a t1] [|b t2] Hl1 Hl2;
    try discriminate Hl1; try discriminate Hl2; [reflexivity|].
  cbn [pd.put_col map]. f_equal. apply IH; simpl in Hl1, Hl2; lia.
Qed.

Lemma finish_tagged (all : list (list cell)) :
  finish tdo (mkFrame None tagged_columns all) =
  match to_datetime tdo (map (fun r => nth 0 r NaN) all) with
  | inl e => inl e
  | inr t1 =>
      match to_datetime tdo (map (fun r => nth 6 r NaN) all) with
      | inl e => inl e
      | inr t2 =>
          inr (mkFrame (Some ("Open time", t1)) output_columns (map kept all))
      end
  end.
Proof.
  unfold finish.
  rewrite (getitem_tagged None "Open time" all 0 eq_refl).
  destruct (to_datetime tdo (map (fun r => nth 0 r NaN) all)) as [e|t1] eqn:H1;
    [reflexivity|].
  apply to_datetime_length in H1. rewrite length_map in H1.
  cbv zeta. rewrite (setitem_tagged None "Open time" all t1 eq_refl).
  rewrite (getitem_tagged None "Close time" _ 6 eq_refl).
  rewrite (closes_after_opens all t1 H1).
  destruct (to_datetime tdo (map (fun r => nth 6 r NaN) all)) as [e|t2] eqn:H2;
    [reflexivity|].
  apply to_datetime_length in H2. rewrite length_map in H2.
  rewrite (setitem_tagged None "Close time" _ t2 eq_refl).
  rewrite set_index_tagged, drop_indexed.
  rewrite (keys_after_both all t1 t2 H1 H2).
  rewrite (rows_after_both all t1 t2 H1 H2).
  reflexivity.
Qed.

End Assembly.

(** ** The whole run *)

Section WholeRun.

Variable irr : json -> result (list (list cell)).
Variable tdo : cell -> result cell.
Variable source : Source.

Lemma DataFrame_of_shape (response : json) (names : list string) (f : DataFrame) :
  DataFrame_of irr response names = inr f ->
  index f = None /\ columns f = names.
Proof.
  unfold DataFrame_of, pd.from_rows. intros H.
  destruct response;
    try (destruct (irr _); [discriminate|]; injection H as <-; easy).
  destruct (arrays items) as [data|].
  - destruct data; [injection H as <-; easy|].
    destruct (Nat.eqb _ _); [injection H as <-; easy | discriminate].
  - destruct (irr _); [discriminate|]. injection H as <-. easy.
Qed.

Lemma symbol_frame_shaped (symbol : string) (answer : result json)
    (df : DataFrame) :
  symbol_frame irr symbol answer = inr df ->
  shaped df
  /\ Forall (fun row => nth 12 row NaN = Val (JStr symbol)) (rows df).
Proof.
  unfold symbol_frame. destruct answer as [e|response]; [discriminate|].
  destruct (DataFrame_of irr response kline_columns) as [e|f] eqn:Hf;
    [discriminate|].
  apply DataFrame_of_shape in Hf. destruct Hf as [Hi Hc].
  intros [= <-]. destruct f as [ix cs rs]. simpl in Hi, Hc. subst.
  unfold shaped, pd.setitem_scalar. cbn [index columns rows].
  change (pd.has "Symbol" kline_columns) with false. cbv iota.
  change (kline_columns ++ ["Symbol"]) with tagged_columns.
  repeat split.
  - apply List.Forall_forall. intros row Hrow. apply in_map_iff in Hrow.
    destruct Hrow as (r & <- & _). reflexivity.
  - apply List.Forall_forall. intros row Hrow. apply in_map_iff in Hrow.
    destruct Hrow as (r & <- & _). reflexivity.
Qed.

Lemma to_datetime_iff (series stamps : list cell) :
  to_datetime tdo series = inr stamps
  <-> Forall (converts tdo) series /\ stamps = map (stamp tdo) series.
Proof.
  revert stamps. induction series as [|c series IH]; intros stamps; simpl.
  - split; [intros [= <-]; easy | intros [_ ->]; reflexivity].
  - unfold stamp at 1. split.
    + destruct (to_datetime_cell tdo c) as [e|t] eqn:Hc; [discriminate|].
      destruct (to_datetime tdo series) as [e|ts]; [discriminate|].
      intros [= <-]. destruct (proj1 (IH ts) eq_refl) as [Hall ->].
      split; [constructor; [exists t; exact Hc | exact Hall] | reflexivity].
    + intros [Hall ->]. inversion Hall as [|? ? [t Ht] Hrest]; subst.
      rewrite Ht. rewrite (proj2 (IH _) (conj Hrest eq_refl)). reflexivity.
Qed.

Lemma scrape_fetch_all_cases (schedule : list nat) (st : State) :
  let k := length (sent (world st)) in
  let url := symbols_url (self st) in
  match source k url with
  | inl e =>
      scrape_fetch_all irr source schedule st = (inl e, requested [url] st)
  | inr response =>
      match list_symbols response with
      | inl e =>
          scrape_fetch_all irr source schedule st = (inl e, requested [url] st)
      | inr symbols =>
          scrape_fetch_all irr source schedule st =
          gather irr schedule
            (tasks_of source (params (self st)) (S k) 0 symbols)
            (mkState (with_symbols_list (self st) symbols)
               (mkWorld
                  (sent (world st)
                   ++ url :: map (endpoint (params (self st))) symbols)
                  (pbar (world st)) (disk (world st))))
      end
  end.
Proof.
  cbv zeta. unfold scrape_fetch_all, bind, get_self, fetch, bind, fetch_begin,
    lift, set_self. cbn [self world sent pbar disk].
  destruct (source _ _) as [e|response]; [reflexivity|].
  destruct (list_symbols response) as [e|symbols]; [reflexivity|].
  rewrite ensure_futures_eq. unfold requested.
  cbn [self world sent pbar disk with_symbols_list params].
  rewrite length_app, Nat.add_1_r, <- app_assoc. reflexivity.
Qed.

Lemma returns_functional (tasks : list InFlight) (r1 r2 : list DataFrame) :
  Forall2 (returns irr) tasks r1 -> Forall2 (returns irr) tasks r2 -> r1 = r2.
Proof.
  intros H1. revert r2. induction H1 as [|t df ts dfs Ht _ IH]; intros r2 H2.
  - now inversion H2.
  - inversion H2 as [|? df' ? dfs' Ht' Hrest]; subst.
    unfold returns in *. f_equal; [congruence | now apply IH].
Qed.

Lemma returns_shaped (tasks : list InFlight) (results : list DataFrame) :
  Forall2 (returns irr) tasks results -> Forall shaped results.
Proof.
  induction 1 as [|t df ts dfs Ht _ IH]; constructor; [|exact IH].
  now apply symbol_frame_shaped in Ht.
Qed.

Lemma to_table_written (all : list (list cell)) :
  pd.to_table
    (mkFrame (Some ("Open time", map (stamp tdo) (map (fun r => nth 0 r NaN) all)))
       output_columns (map kept all))
  = mkTable ("Open time" :: output_columns) (map (written tdo) all).
Proof.
  unfold pd.to_table. cbn [index columns rows]. f_equal.
  induction all as [|r all IH]; [reflexivity|].
  cbn [map combine]. now rewrite IH.
Qed.

(** A run completes exactly when the catalog is read, it lists at least one
    symbol, every task returns a frame and every open time and close time
    converts; the world it leaves does not depend on the schedule. *)
Lemma main_spec (schedule : list nat) (args : Args) (console : Console)
    (w w' : World) (limit : Z) (tf : string) :
  cli_limit args console = inr limit ->
  cli_tf args console = inr tf ->
  main irr tdo source schedule args console w = (inr tt, w')
  <-> exists symbols results,
        catalog source w = inr symbols
        /\ Forall2 (returns irr)
             (tasks_of source (mkParams tf limit) (S (length (sent w))) 0 symbols)
             results
        /\ results <> []
        /\ Forall (fun r => converts tdo (nth 0 r NaN)) (candles results)
        /\ Forall (fun r => converts tdo (nth 6 r NaN)) (candles results)
        /\ w' = completed tdo w (mkParams tf limit) symbols results.
Proof.
  intros Hl Ht. unfold main. rewrite Hl, Ht. unfold scrape, bind.
  pose proof (scrape_fetch_all_cases schedule (mkState (init tf limit) w)) as Hc.
  cbv zeta in Hc. cbn [self world symbols_url init params] in Hc.
  unfold catalog. fold catalog_url in Hc.
  destruct (source (length (sent w)) catalog_url) as [e|response].
  { rewrite Hc. split; [discriminate|]. now intros (? & ? & ? & _). }
  destruct (list_symbols response) as [e|symbols].
  { rewrite Hc. split; [discriminate|]. now intros (? & ? & ? & _). }
  rewrite Hc. clear Hc.
  set (tasks := tasks_of source (mkParams tf limit) (S (length (sent w))) 0 symbols).
  set (st0 := mkState _ _).
  assert (Hidx : idx <$> tasks = seq 0 (length tasks)).
  { subst tasks. now rewrite tasks_of_idx, tasks_of_length. }
  assert (Hn : length tasks = length symbols) by apply tasks_of_length.
  destruct (gather irr schedule tasks st0) as [[e|results] st1] eqn:Hg.
  { split; [discriminate|]. intros (symbols' & results' & [= <-] & Hret & _).
    assert (Hg' := proj2 (gather_iff irr schedule tasks results' st0 _ Hidx)
                     (conj Hret eq_refl)).
    congruence. }
  apply gather_iff in Hg; [|exact Hidx]. destruct Hg as [Hret ->].
  pose proof (scrape_assemble_spec tdo results (advance (length tasks) st0)) as Hs.
  unfold assemble in Hs.
  change (historical_data (self (advance (length tasks) st0))) with pd.empty in Hs.
  destruct results as [|r results].
  { change (finish tdo (fold_left pd.concat [] pd.empty))
      with (@inl exn DataFrame (KeyError "Open time")) in Hs.
    destruct Hs as (st' & -> & _). split; [discriminate|].
    intros (symbols' & results' & [= <-] & Hret' & Hne & _).
    now rewrite (returns_functional _ _ _ Hret' Hret) in Hne. }
  rewrite (merged_shaped r results (returns_shaped _ _ Hret)), finish_tagged in Hs.
  fold (candles (r :: results)) in Hs.
  destruct (to_datetime tdo (map (fun r => nth 0 r NaN) (candles (r :: results))))
    as [e|t1] eqn:H1.
  { destruct Hs as (st' & -> & _). split; [discriminate|].
    intros (symbols' & results' & [= <-] & Hret' & _ & Hopen & _).
    rewrite (returns_functional _ _ _ Hret' Hret) in Hopen.
    assert (Hok : to_datetime tdo
                    (map (fun r => nth 0 r NaN) (candles (r :: results)))
                  = inr (map (stamp tdo)
                           (map (fun r => nth 0 r NaN) (candles (r :: results))))).
    { apply to_datetime_iff. split; [|reflexivity]. now rewrite List.Forall_map. }
    congruence. }
  destruct (to_datetime tdo (map (fun r => nth 6 r NaN) (candles (r :: results))))
    as [e|t2] eqn:H2.
  { destruct Hs as (st' & -> & _). split; [discriminate|].
    intros (symbols' & results' & [= <-] & Hret' & _ & _ & Hclose & _).
    rewrite (returns_functional _ _ _ Hret' Hret) in Hclose.
    assert (Hok : to_datetime tdo
                    (map (fun r => nth 6 r NaN) (candles (r :: results)))
                  = inr (map (stamp tdo)
                           (map (fun r => nth 6 r NaN) (candles (r :: results))))).
    { apply to_datetime_iff. split; [|reflexivity]. now rewrite List.Forall_map. }
    congruence. }
  rewrite Hs. clear Hs.
  apply to_datetime_iff in H1. destruct H1 as [Hopen ->].
  apply to_datetime_iff in H2. destruct H2 as [Hclose _].
  rewrite to_table_written. cbn [world advance st0 sent pbar disk].
  rewrite List.Forall_map in Hopen, Hclose.
  assert (Hw : mkWorld
                 (sent w ++ catalog_url :: map (endpoint (mkParams tf limit)) symbols)
                 (pbar w + length tasks)
                 (Some (mkTable ("Open time" :: output_columns)
                          (map (written tdo) (candles (r :: results)))))
               = completed tdo w (mkParams tf limit) symbols (r :: results)).
  { unfold completed. now rewrite Hn. }
  split.
  - intros [= <-]. exists symbols, (r :: results).
    repeat split; try assumption; try easy.
  - intros (symbols' & results' & [= <-] & Hret' & _ & _ & _ & ->).
    rewrite (returns_functional _ _ _ Hret' Hret). f_equal. exact Hw.
Qed.

(** What every run leaves, completed or not: the requests it has made,
    and, when it raised, the file as it was. *)
Lemma main_world (schedule : list nat) (args : Args) (console : Console)
    (w : World) (limit : Z) (tf : string) :
  cli_limit args console = inr limit ->
  cli_tf args console = inr tf ->
  sent (snd (main irr tdo source schedule args console w))
  = sent w ++ catalog_url ::
      match catalog source w with
      | inl _ => []
      | inr symbols => map (endpoint (mkParams tf limit)) symbols
      end
  /\ (forall e, fst (main irr tdo source schedule args console w) = inl e ->
       disk (snd (main irr tdo source schedule args console w)) = disk w).
Proof.
  intros Hl Ht. unfold main. rewrite Hl, Ht. unfold scrape, bind.
  pose proof (scrape_fetch_all_cases schedule (mkState (init tf limit) w)) as Hc.
  cbv zeta in Hc. cbn [self world symbols_url init params] in Hc.
  unfold catalog. fold catalog_url in Hc.
  destruct (source (length (sent w)) catalog_url) as [e|response].
  { rewrite Hc. easy. }
  destruct (list_symbols response) as [e|symbols].
  { rewrite Hc. easy. }
  rewrite Hc. clear Hc.
  set (tasks := tasks_of source (mkParams tf limit) (S (length (sent w))) 0 symbols).
  set (st0 := mkState _ _).
  destruct (gather_world irr schedule tasks st0) as (_ & Hsent & Hdisk).
  destruct (gather irr schedule tasks st0) as [[e|results] st1].
  { cbn [fst snd] in *. rewrite Hsent, Hdisk. easy. }
  cbn [fst snd] in Hsent, Hdisk.
  pose proof (scrape_assemble_spec tdo results st1) as Hs.
  destruct (assemble tdo results (historical_data (self st1))) as [e|df].
  - destruct Hs as (st' & -> & Hw). cbn [fst snd]. rewrite Hw, Hsent, Hdisk. easy.
  - rewrite Hs. cbn [fst snd world sent]. rewrite Hsent. easy.
Qed.

(** A task that raises makes the run raise. *)
Lemma main_raises (schedule : list nat) (args : Args) (console : Console)
    (w : World) (limit : Z) (tf : string) (symbols : list string)
    (t : InFlight) (e : exn) :
  cli_limit args console = inr limit ->
  cli_tf args console = inr tf ->
  catalog source w = inr symbols ->
  t ∈ tasks_of source (mkParams tf limit) (S (length (sent w))) 0 symbols ->
  task_frame irr t = inl e ->
  exists e', fst (main irr tdo source schedule args console w) = inl e'.
Proof.
  intros Hl Ht Hcat Hin Hfail.
  destruct (main irr tdo source schedule args console w) as [[e'|[]] w'] eqn:Hm;
    [eauto|].
  apply (main_spec schedule args console w w' limit tf Hl Ht) in Hm.
  destruct Hm as (symbols' & results & Hcat' & Hret & _).
  rewrite Hcat in Hcat'. injection Hcat' as <-.
  apply list_elem_of_lookup_1 in Hin. destruct Hin as [j Hj].
  destruct (Forall2_lookup_l _ _ _ _ _ Hret Hj) as (df & _ & Hdf).
  unfold returns in Hdf. congruence.
Qed.

End WholeRun.


(** ** Properties of the run *)

Section RunProperties.

Variable irr : json -> result (list (list cell)).
Variable tdo : cell -> result cell.
Variable source : Source.

Lemma tasks_of_lookup (p : Params) (symbols : list string) :
  forall k j i s,
    symbols !! i = Some s ->
    tasks_of source p k j symbols !! i
    = Some ((j + i)%nat, s, source (k + i)%nat (endpoint p s)).
Proof.
  induction symbols as [|s0 rest IH]; intros k j i s H; [discriminate|].
  cbn [tasks_of]. destruct i as [|i].
  - injection H as ->. now rewrite !Nat.add_0_r.
  - change (rest !! i = Some s) in H.
    change (tasks_of source p (S k) (S j) rest !! i
            = Some ((j + S i)%nat, s, source (k + S i)%nat (endpoint p s))).
    rewrite (IH (S k) (S j) i s H).
    replace (S j + i)%nat with (j + S i)%nat by lia.
    replace (S k + i)%nat with (k + S i)%nat by lia. reflexivity.
Qed.

Lemma returns_tagged (p : Params) (symbols : list string) :
  forall k j results,
    Forall2 (returns irr) (tasks_of source p k j symbols) results ->
    Forall2 (fun s df =>
               Forall (fun row => nth 12 row NaN = Val (JStr s)) (rows df))
            symbols results.
Proof.
  induction symbols as [|s rest IH]; intros k j results H; simpl in H.
  - inversion H. constructor.
  - inversion H as [|? df ? dfs Hdf Hrest]; subst. constructor.
    + now apply symbol_frame_shaped in Hdf.
    + eapply IH, Hrest.
Qed.

Lemma candles_tagged (Q : string -> list cell -> Prop)
    (symbols : list string) (results : list DataFrame) :
  Forall2 (fun s df => Forall (Q s) (rows df)) symbols results ->
  Forall (fun row => exists s, In s symbols /\ Q s row) (candles results).
Proof.
  induction 1 as [|s df symbols results Hdf _ IH]; [constructor|].
  unfold candles. cbn [map concat]. apply Forall_app. split.
  - eapply Forall_impl; [exact Hdf|]. intros row Hrow. exists s.
    split; [now left | exact Hrow].
  - eapply Forall_impl; [exact IH|]. intros row (s' & Hin & Hrow).
    exists s'. split; [now right | exact Hrow].
Qed.

(** C3. In every run that completes, the file holds as many records as the
    series of the catalog's symbols have rows together, and the Symbol field
    of every record is a symbol of the catalog snapshot. *)
Theorem merge_cardinality (schedule : list nat) (args : Args)
    (console : Console) (w w' : World) (limit : Z) (tf : string) :
  cli_limit args console = inr limit ->
  cli_tf args console = inr tf ->
  main irr tdo source schedule args console w = (inr tt, w') ->
  exists symbols results table,
    catalog source w = inr symbols
    /\ Forall2 (returns irr)
         (tasks_of source (mkParams tf limit) (S (length (sent w))) 0 symbols)
         results
    /\ disk w' = Some table
    /\ length (body table) = list_sum (map (fun df => length (rows df)) results)
    /\ Forall (fun record =>
                 exists s, In s symbols /\ symbol_cell record = Val (JStr s))
              (body table).
Proof.
  intros Hl Ht Hrun. apply (main_spec irr tdo source _ _ _ _ _ _ _ Hl Ht) in Hrun.
  destruct Hrun as (symbols & results & Hcat & Hret & _ & _ & _ & ->).
  exists symbols, results, (mkTable ("Open time" :: output_columns)
                              (map (written tdo) (candles results))).
  repeat split; try assumption.
  - cbn [body]. unfold candles.
    now rewrite length_map, length_concat, map_map.
  - cbn [body]. rewrite List.Forall_map.
    apply (candles_tagged
             (fun s row => symbol_cell (written tdo row) = Val (JStr s))).
    eapply Forall2_impl; [exact (returns_tagged _ _ _ _ _ Hret)|].
    intros s df Hdf. eapply Forall_impl; [exact Hdf|].
    intros row Hrow. exact Hrow.
Qed.



(** C1, as the code has it. When the candle fetch of one symbol of the
    catalog raises, be it the request or the construction of the frame, the
    run raises, under every schedule, and the file is left as it was: no
    row of any symbol is written. *)
Theorem failed_fetch_aborts (schedule : list nat) (args : Args)
    (console : Console) (w : World) (limit : Z) (tf : string)
    (symbols : list string) (i : nat) (s : string) (e : exn) :
  cli_limit args console = inr limit ->
  cli_tf args console = inr tf ->
  catalog source w = inr symbols ->
  symbols !! i = Some s ->
  symbol_frame irr s
    (source (S (length (sent w)) + i)%nat (endpoint (mkParams tf limit) s))
  = inl e ->
  exists e',
    fst (main irr tdo source schedule args console w) = inl e'
    /\ disk (snd (main irr tdo source schedule args console w)) = disk w.
Proof.
  intros Hl Ht Hcat Hs Hfail.
  pose proof (tasks_of_lookup (mkParams tf limit) symbols
                (S (length (sent w))) 0 i s Hs) as Htask.
  destruct (main_raises irr tdo source schedule args console w limit tf
              symbols _ e Hl Ht Hcat (list_elem_of_lookup_2 _ _ _ Htask) Hfail)
    as [e' He'].
  exists e'. split; [exact He'|].
  now apply (proj2 (main_world irr tdo source schedule args console w limit tf
                      Hl Ht) e').
Qed.

(** C2, as the code has it. Whatever timeframe and limit the command line
    gives, the scraper stores them unchanged, the run requests the catalog,
    and every candle request carries them as given: nothing is checked
    before the network is used. *)
Theorem no_parameter_check (schedule : list nat) (console : Console)
    (w : World) (limit : Z) (tf : string) :
  params (init tf limit) = mkParams tf limit
  /\ sent (snd (main irr tdo source schedule
                  (mkArgs (Some limit) (Some tf)) console w))
     = sent w ++ catalog_url ::
         match catalog source w with
         | inl _ => []
         | inr symbols => map (endpoint (mkParams tf limit)) symbols
         end.
Proof.
  split; [reflexivity|].
  now apply (main_world irr tdo source schedule
               (mkArgs (Some limit) (Some tf)) console w limit tf).
Qed.

(** C6. A run that meets a fatal failure ends with that exception, the file
    is as it was before the run, and no candle was requested. *)
Theorem fatal_leaves_file (schedule : list nat) (args : Args)
    (console : Console) (w : World) (e : exn) :
  fatal source args console w e ->
  fst (main irr tdo source schedule args console w) = inl e
  /\ disk (snd (main irr tdo source schedule args console w)) = disk w
  /\ (sent (snd (main irr tdo source schedule args console w)) = sent w
      \/ sent (snd (main irr tdo source schedule args console w))
         = sent w ++ [catalog_url]).
Proof.
  intros [Hl | [(limit & Hl & Ht) | (limit & tf & Hl & Ht & Hcat)]].
  - unfold main. rewrite Hl. cbn [fst snd]. auto.
  - unfold main. rewrite Hl, Ht. cbn [fst snd]. auto.
  - destruct (main_world irr tdo source schedule args console w limit tf Hl Ht)
      as [Hsent Hdisk].
    rewrite Hcat in Hsent.
    assert (Hout : fst (main irr tdo source schedule args console w) = inl e).
    { unfold main. rewrite Hl, Ht. unfold scrape, bind.
      pose proof (scrape_fetch_all_cases irr source schedule
                    (mkState (init tf limit) w)) as Hc.
      cbv zeta in Hc. cbn [self world symbols_url init params] in Hc.
      unfold catalog in Hcat. fold catalog_url in Hc.
      destruct (source (length (sent w)) catalog_url) as [e0|response].
      - rewrite Hc. cbn [fst]. congruence.
      - rewrite Hcat in Hc. now rewrite Hc. }
    split; [exact Hout|]. split; [now apply (Hdisk e) | now right].
Qed.

Lemma comprehension_raises (entries : list json) (entry : json) (e : exn) :
  In entry entries -> keep_symbol entry = inl e ->
  exists e', comprehension entries = inl e'.
Proof.
  induction entries as [|x rest IH]; intros Hin Hfail; [destruct Hin|].
  simpl. destruct Hin as [-> | Hin].
  - rewrite Hfail. eauto.
  - destruct (keep_symbol x); [eauto|].
    destruct (IH Hin Hfail) as [e' ->]. eauto.
Qed.

(** C8, as the code has it. A candle answer that is a non-empty array of
    arrays makes the fetch raise [ValueError] when its longest row does not
    have 12 fields, and otherwise return one row per array, shorter rows
    filled up; a metadata answer without [symbols] makes the catalog raise;
    an entry without [symbol] makes it raise; an entry without [status]
    makes it raise when the entry's identifier ends with USDT, and is
    skipped when it does not. *)
Theorem schema_failures :
  (forall symbol st data,
     data <> [] ->
     source (length (sent (world st))) (endpoint (params (self st)) symbol)
       = inr (JArr (map JArr data)) ->
     (pd.width data <> 12%nat ->
        fst (get_historical_data irr source symbol st) = inl ValueError)
     /\ (pd.width data = 12%nat ->
           exists df,
             fst (get_historical_data irr source symbol st) = inr df
             /\ length (rows df) = length data))
  /\ (forall response e,
        Py.getitem response "symbols" = inl e -> list_symbols response = inl e)
  /\ (forall response entries entry e,
        Py.getitem response "symbols" = inr (JArr entries) ->
        In entry entries -> keep_symbol entry = inl e ->
        exists e', list_symbols response = inl e')
  /\ (forall entry e,
        Py.getitem entry "symbol" = inl e -> keep_symbol entry = inl e)
  /\ (forall entry s e,
        Py.getitem entry "symbol" = inr (JStr s) ->
        Py.getitem entry "status" = inl e ->
        keep_symbol entry
        = if Py.str_endswith s "USDT" then inl e else inr None).
Proof.
  repeat split.
  - intros Hw. rewrite get_historical_data_eq. cbv zeta. rewrite H0.
    unfold symbol_frame, DataFrame_of. rewrite arrays_map_JArr.
    unfold pd.from_rows. destruct data as [|r data]; [congruence|].
    destruct (Nat.eqb_spec (pd.width (r :: data)) (length kline_columns))
      as [E|N]; [|reflexivity].
    exfalso. apply Hw. exact E.
  - intros Hw. rewrite get_historical_data_eq. cbv zeta. rewrite H0.
    unfold symbol_frame, DataFrame_of. rewrite arrays_map_JArr.
    unfold pd.from_rows. destruct data as [|r data]; [congruence|].
    destruct (Nat.eqb_spec (pd.width (r :: data)) (length kline_columns))
      as [E|N]; [|exfalso; apply N; exact Hw].
    eexists. split; [reflexivity|].
    rewrite setitem_scalar_length. cbn [rows].
    rewrite infer_length. cbn [map length]. f_equal. apply length_map.
  - intros response e H. unfold list_symbols. now rewrite H.
  - intros response entries entry e Hget Hin Hfail. unfold list_symbols.
    rewrite Hget. cbn [Py.iter]. eapply comprehension_raises; eassumption.
  - intros entry e H. unfold keep_symbol. now rewrite H.
  - intros entry s e Hid Hst. unfold keep_symbol. rewrite Hid.
    cbn [Py.endswith]. destruct (Py.str_endswith s "USDT"); [|reflexivity].
    now rewrite Hst.
Qed.

End RunProperties.


(** ** Runs on the sample exchanges *)

Lemma exchange_frozen (tf : string) (limit : Z) :
  frozen (Sample.exchange tf limit).
Proof. intros k k' url. (vm_compute; reflexivity). Qed.

(** C1 does not hold of the code: with the candles of ETHUSDT out of reach, the
    catalog still lists BTCUSDT and ETHUSDT and the fetch for BTCUSDT returns
    its two rows, yet the run raises and there is no file. *)
Lemma isolation_counterexample :
  catalog (Sample.exchange_eth_down "1m" 5) Sample.fresh
    = inr ["BTCUSDT"; "ETHUSDT"]
  /\ (exists df,
        symbol_frame Sample.no_rows "BTCUSDT"
          (Sample.exchange_eth_down "1m" 5 1%nat
             (Sample.klines_url "BTCUSDT" "1m" 5)) = inr df
        /\ length (rows df) = 2%nat)
  /\ fst Sample.run_eth_down = inl (ClientError "Server disconnected")
  /\ disk (snd Sample.run_eth_down) = None.
Proof.
  split; [(vm_compute; reflexivity)|]. split; [eexists; split; (vm_compute; reflexivity)|].
  split; (vm_compute; reflexivity).
Qed.

Lemma failed_fetch_aborts_witness :
  exists e',
    fst Sample.run_eth_down = inl e'
    /\ disk (snd Sample.run_eth_down) = disk Sample.fresh.
Proof.
  apply (failed_fetch_aborts Sample.no_rows Sample.no_stamp
           (Sample.exchange_eth_down "1m" 5) [1%nat; 0%nat]
           (Sample.options "1m" 5) Sample.no_console Sample.fresh 5 "1m"
           ["BTCUSDT"; "ETHUSDT"] 1 "ETHUSDT"
           (ClientError "Server disconnected"));
    (vm_compute; reflexivity).
Defined.

(** C2 does not hold of the code: the timeframe 7x and the limit 5000 are outside
    what is allowed, yet the run raises nothing, requests the catalog and
    the candles with these values, and completes. *)
Lemma validation_counterexample :
  ~ In "7x" ["1m"; "3m"; "5m"; "15m"; "30m"; "1h"; "2h"; "4h"; "8h"; "1d"]
  /\ (1000 < 5000)%Z
  /\ fst Sample.run_unchecked = inr tt
  /\ sent (snd Sample.run_unchecked)
     = ["https://api.binance.com/api/v3/exchangeInfo";
        "https://api.binance.com/api/v3/klines?symbol=BTCUSDT&interval=7x&limit=5000";
        "https://api.binance.com/api/v3/klines?symbol=ETHUSDT&interval=7x&limit=5000"].
Proof.
  split.
  - intros H. repeat (destruct H as [H|H]; [discriminate H|]). exact H.
  - split; [(vm_compute; reflexivity)|]. split; (vm_compute; reflexivity).
Qed.

Lemma merge_cardinality_witness :
  exists symbols results table,
    catalog (Sample.exchange "1m" 5) Sample.fresh = inr symbols
    /\ Forall2 (returns Sample.no_rows)
         (tasks_of (Sample.exchange "1m" 5) (mkParams "1m" 5) 1 0 symbols)
         results
    /\ disk (snd Sample.run) = Some table
    /\ length (body table) = list_sum (map (fun df => length (rows df)) results)
    /\ Forall (fun record =>
                 exists s, In s symbols /\ symbol_cell record = Val (JStr s))
              (body table).
Proof.
  apply (merge_cardinality Sample.no_rows Sample.no_stamp
           (Sample.exchange "1m" 5) [1%nat; 0%nat] (Sample.options "1m" 5)
           Sample.no_console Sample.fresh (snd Sample.run) 5 "1m");
    (vm_compute; reflexivity).
Defined.

(** The scenario of C3: two rows for BTCUSDT and three for ETHUSDT make five
    records. *)
Example five_records :
  option_map (fun t => length (body t)) (disk (snd Sample.run)) = Some 5%nat.
Proof. (vm_compute; reflexivity). Qed.



Lemma catalog_exact_witness :
  (Forall documented
     [Sample.entry "BTCUSDT" "TRADING"; Sample.entry "ETHBTC" "TRADING";
      Sample.entry "LUNAUSDT" "BREAK"; Sample.entry "ETHUSDT" "TRADING"] ->
   exists symbols, list_symbols Sample.info = inr symbols)
  /\ (forall symbols,
        list_symbols Sample.info = inr symbols ->
        forall s, In s symbols <->
          exists entry,
            In entry [Sample.entry "BTCUSDT" "TRADING"; Sample.entry "ETHBTC" "TRADING";
                      Sample.entry "LUNAUSDT" "BREAK"; Sample.entry "ETHUSDT" "TRADING"]
            /\ listed entry s).
Proof.
  apply (catalog_exact Sample.info). vm_compute. reflexivity.
Defined.

Example catalog_sample :
  list_symbols Sample.info = inr ["BTCUSDT"; "ETHUSDT"].
Proof. (vm_compute; reflexivity). Qed.

Lemma fatal_leaves_file_witness :
  fst (main Sample.no_rows Sample.no_stamp Sample.exchange_down []
         (Sample.options "1m" 5) Sample.no_console Sample.stale)
  = inl (ClientError "Cannot connect to host")
  /\ disk (snd (main Sample.no_rows Sample.no_stamp Sample.exchange_down []
                 (Sample.options "1m" 5) Sample.no_console Sample.stale))
     = disk Sample.stale
  /\ (sent (snd (main Sample.no_rows Sample.no_stamp Sample.exchange_down []
                   (Sample.options "1m" 5) Sample.no_console Sample.stale))
      = sent Sample.stale
      \/ sent (snd (main Sample.no_rows Sample.no_stamp Sample.exchange_down []
                      (Sample.options "1m" 5) Sample.no_console Sample.stale))
         = sent Sample.stale ++ [catalog_url]).
Proof.
  apply (fatal_leaves_file Sample.no_rows Sample.no_stamp Sample.exchange_down
           [] (Sample.options "1m" 5) Sample.no_console Sample.stale
           (ClientError "Cannot connect to host")).
  right. right. exists 5%Z, "1m". repeat split; (vm_compute; reflexivity).
Defined.

Lemma series_within_limit_witness :
  exists df,
    fst (get_historical_data Sample.no_rows (Sample.exchange "1m" 5) "BTCUSDT"
           (Sample.built "1m" 5)) = inr df
    /\ length (rows df) = length Sample.btc
    /\ (Z.of_nat (length (rows df)) <= 5)%Z.
Proof.
  eexists. split; [(vm_compute; reflexivity)|].
  apply (series_within_limit Sample.no_rows (Sample.exchange "1m" 5) "BTCUSDT"
           (Sample.built "1m" 5)
           (snd (get_historical_data Sample.no_rows (Sample.exchange "1m" 5)
                   "BTCUSDT" (Sample.built "1m" 5)))
           Sample.btc);
    [(vm_compute; reflexivity) | simpl; lia | (vm_compute; reflexivity)].
Defined.

(** C8 does not hold of the code: a candle answer whose second row has 11 fields
    yields a series of two rows, and an instrument list whose first entry
    has no status yields a catalog. *)
Lemma schema_counterexample :
  Exists (fun row => length row <> 12%nat) Sample.ragged
  /\ (exists df,
        fst (get_historical_data Sample.no_rows (Sample.exchange_ragged "1m" 5)
               "BTCUSDT" (Sample.built "1m" 5)) = inr df
        /\ length (rows df) = 2%nat)
  /\ Py.getitem (JObj [("symbol", JStr "ETHBTC")]) "status"
     = inl (KeyError "status")
  /\ list_symbols Sample.info_no_status = inr ["BTCUSDT"].
Proof.
  split; [right; left; simpl; lia|].
  split; [eexists; split; (vm_compute; reflexivity)|].
  split; (vm_compute; reflexivity).
Qed.

Lemma schema_failures_witness :
  exists df,
    fst (get_historical_data Sample.no_rows (Sample.exchange_ragged "1m" 5)
           "BTCUSDT" (Sample.built "1m" 5)) = inr df
    /\ length (rows df) = length Sample.ragged.
Proof.
  apply (proj1 (schema_failures Sample.no_rows (Sample.exchange_ragged "1m" 5))
           "BTCUSDT" (Sample.built "1m" 5) Sample.ragged);
    [discriminate | (vm_compute; reflexivity) | (vm_compute; reflexivity)].
Defined.

Lemma fetch_deterministic_witness :
  fst (get_historical_data Sample.no_rows (Sample.exchange "1m" 5) "BTCUSDT"
         (Sample.built "1m" 5))
  = fst (get_historical_data Sample.no_rows (Sample.exchange "1m" 5) "BTCUSDT"
           (snd (get_historical_data Sample.no_rows (Sample.exchange "1m" 5)
                   "BTCUSDT" (Sample.built "1m" 5)))).
Proof.
  apply (fetch_deterministic Sample.no_rows (Sample.exchange "1m" 5) "BTCUSDT");
    [intros k k' url; (vm_compute; reflexivity) | (vm_compute; reflexivity)].
Defined.


(** * Further properties *)

(** ** What a fetch returns *)

Lemma width_bound (data : list (list json)) (r : list json) :
  In r data -> length r <= pd.width data.
Proof.
  induction data as [|r0 data IH]; intros Hin; [destruct Hin|].
  cbn [pd.width fold_right]. fold (pd.width data). destruct Hin as [-> | Hin].
  - apply Nat.le_max_l.
  - etransitivity; [apply IH, Hin | apply Nat.le_max_r].
Qed.

Lemma tag_twelve (row : list cell) (v : cell) :
  length row = 12%nat ->
  map (fun c => if String.eqb c "Symbol" then v
                else pd.at_col kline_columns row c)
      (kline_columns ++ ["Symbol"])
  = row ++ [v].
Proof.
  intros H. do 12 (destruct row as [|? row]; [discriminate H|]).
  destruct row; [reflexivity | discriminate H].
Qed.

Lemma pad_length (w : nat) (r : list json) :
  length r <= w -> length (pd.pad w r) = w.
Proof.
  intros H. unfold pd.pad. rewrite length_app, length_map, repeat_length. lia.
Qed.

Lemma pad_nth (w : nat) (r : list json) (j : nat) :
  j < w -> length r <= w -> nth j (pd.pad w r) NaN = Val (field r j).
Proof.
  intros Hj Hr. unfold pd.pad, field.
  destruct (Nat.lt_ge_cases j (length r)) as [Hlt|Hge].
  - rewrite app_nth1 by (rewrite length_map; exact Hlt).
    rewrite (nth_indep _ NaN (Val JNull)) by (rewrite length_map; exact Hlt).
    apply map_nth.
  - rewrite app_nth2 by (rewrite length_map; exact Hge).
    rewrite length_map, (nth_overflow r) by exact Hge.
    rewrite (nth_indep _ NaN (Val JNull)) by (rewrite repeat_length; lia).
    apply nth_repeat.
Qed.

Lemma column_padded (w : nat) (data : list (list json)) (j : nat) :
  j < w -> Forall (fun r => length r <= w) data ->
  pd.column j (map (pd.pad w) data) = map Val (fields data j).
Proof.
  intros Hj Hw. unfold pd.column, fields. rewrite !map_map.
  apply map_ext_in. intros r Hr. rewrite List.Forall_forall in Hw.
  apply pad_nth; [exact Hj | now apply Hw].
Qed.

(** The scan of a column, by what the column holds. *)

Lemma scan_no_null (col : list json) :
  Forall (fun g => ~ is_null g) col ->
  forall int sint uint,
    pd.becomes_float (map Val col) false int sint uint = false.
Proof.
  induction 1 as [|g col Hg _ IH]; intros int sint uint; [reflexivity|].
  cbn [map pd.becomes_float].
  destruct g; try reflexivity; [now destruct Hg|].
  cbv zeta. destruct (_ || _ || _); [reflexivity | apply IH].
Qed.

Lemma scan_other (col : list json) :
  Exists (fun g => ~ is_null g /\ ~ is_int g) col ->
  forall null int sint uint,
    pd.becomes_float (map Val col) null int sint uint = false.
Proof.
  induction 1 as [g col [Hn Hi]|g col _ IH]; intros null int sint uint;
    cbn [map pd.becomes_float].
  - destruct g; try reflexivity; [now destruct Hn|].
    destruct Hi. now exists z.
  - destruct g; try reflexivity; [apply IH|].
    destruct null; [apply IH|].
    cbv zeta. destruct (_ || _ || _); [reflexivity | apply IH].
Qed.

Lemma scan_all_null (col : list json) :
  Forall is_null col ->
  forall null sint uint,
    pd.becomes_float (map Val col) null false sint uint = false.
Proof.
  induction 1 as [|g col Hg _ IH]; intros null sint uint;
    cbn [map pd.becomes_float]; [apply andb_false_r|].
  rewrite Hg. apply IH.
Qed.

Lemma scan_int64 (col : list json) :
  Forall (fun g => is_null g \/ is_int64 g) col ->
  forall null int sint,
    null = true \/ Exists is_null col ->
    int = true \/ Exists is_int col ->
    pd.becomes_float (map Val col) null int sint false = true.
Proof.
  induction 1 as [|g col Hg _ IH]; intros null int sint Hn Hi;
    cbn [map pd.becomes_float].
  - destruct Hn as [-> | Hn]; [|inversion Hn].
    destruct Hi as [-> | Hi]; [reflexivity | inversion Hi].
  - destruct Hg as [-> | (z & -> & Hlo & Hhi)].
    + apply IH; [now left|].
      destruct Hi as [Hi|Hi]; [now left | right].
      inversion Hi as [? ? [z Hz]|]; [discriminate Hz | assumption].
    + assert (Hn' : null = true \/ Exists is_null col).
      { destruct Hn as [Hn|Hn]; [now left | right].
        inversion Hn as [? ? Hz|]; [discriminate Hz | assumption]. }
      destruct null; [apply IH; auto|].
      cbv zeta.
      assert (Hu : (pd.int64_max <? z)%Z = false) by (apply Z.ltb_ge; exact Hhi).
      assert (Hu' : (pd.uint64_max <? z)%Z = false).
      { apply Z.ltb_ge. unfold pd.int64_max, pd.uint64_max in *. lia. }
      assert (Hl : (z <? pd.int64_min)%Z = false) by (apply Z.ltb_ge; exact Hlo).
      rewrite Hu, Hu', Hl. cbn [andb orb]. apply IH; auto.
Qed.

Lemma retype_length (floats : list bool) (row : list cell) :
  length floats = length row -> length (pd.retype floats row) = length row.
Proof.
  revert row. induction floats as [|f floats IH]; intros [|c row] H;
    try discriminate H; [reflexivity|].
  cbn [pd.retype length]. f_equal. apply IH. now injection H.
Qed.

Lemma retype_nth (floats : list bool) (row : list cell) (j : nat) :
  length floats = length row -> j < length row ->
  nth j (pd.retype floats row) NaN
  = if nth j floats false then pd.to_float (nth j row NaN) else nth j row NaN.
Proof.
  revert row j. induction floats as [|f floats IH]; intros [|c row] j H Hj;
    try discriminate H; [inversion Hj|].
  destruct j as [|j]; [reflexivity|].
  cbn [pd.retype nth]. apply IH; [now injection H | cbn [length] in Hj; lia].
Qed.

Lemma Forall2_map_in {A B} (R : A -> B -> Prop) (g : A -> B) (l : list A) :
  (forall x, In x l -> R x (g x)) -> Forall2 R l (map g l).
Proof.
  induction l as [|x l IH]; intros H; [constructor|].
  cbn [map]. constructor; [apply H; now left|].
  apply IH. intros y Hy. apply H. now right.
Qed.

(** The frame built from an answer that is an array of arrays with a
    longest row of 12 fields. *)
Lemma symbol_frame_fetched (irr : json -> result (list (list cell)))
    (symbol : string) (data : list (list json)) :
  constructible data ->
  exists df,
    symbol_frame irr symbol (inr (JArr (map JArr data))) = inr df
    /\ fetched symbol data df.
Proof.
  intros Hc. unfold symbol_frame, DataFrame_of. rewrite arrays_map_JArr.
  unfold pd.from_rows. destruct data as [|r0 data0].
  { eexists. split; [reflexivity|]. repeat split. constructor. }
  destruct Hc as [Hc|Hw]; [discriminate|]. rewrite Hw.
  set (data := r0 :: data0) in *.
  change (Nat.eqb 12 (length kline_columns)) with true. cbv iota.
  eexists. split; [reflexivity|].
  unfold fetched, pd.setitem_scalar. cbn [index columns rows].
  change (pd.has "Symbol" kline_columns) with false. cbv iota.
  split; [reflexivity|]. split; [reflexivity|].
  assert (Hle : Forall (fun r => length r <= 12) data).
  { apply List.Forall_forall. intros r Hr. rewrite <- Hw.
    now apply width_bound. }
  unfold pd.infer. cbv zeta. rewrite !map_map.
  set (floats := map _ (seq 0 12)).
  assert (Hfl : length floats = 12%nat) by reflexivity.
  assert (Hfj : forall j, j < 12 ->
            nth j floats false
            = pd.becomes_float (map Val (fields data j))
                               false false false false).
  { intros j Hj. subst floats.
    rewrite <- (column_padded 12 data j Hj Hle).
    do 12 (destruct j as [|j]; [reflexivity|]). lia. }
  clearbody floats. apply Forall2_map_in. intros r Hr.
  rewrite List.Forall_forall in Hle. specialize (Hle r Hr).
  assert (Hlen : length (pd.retype floats (pd.pad 12 r)) = 12%nat).
  { rewrite retype_length; rewrite pad_length; auto. }
  rewrite tag_twelve by exact Hlen.
  split; [rewrite length_app, Hlen; reflexivity|].
  split; [rewrite app_nth2, Hlen by lia; reflexivity|].
  intros j Hj. rewrite app_nth1 by lia.
  rewrite retype_nth by (rewrite pad_length; auto).
  rewrite (Hfj j Hj), pad_nth by auto.
  split.
  - intros [Hk | [Hk | Hk]].
    + now rewrite scan_no_null.
    + now rewrite scan_other.
    + now rewrite scan_all_null.
  - intros (Hall & Hnull & Hint).
    rewrite scan_int64 by auto.
    rewrite List.Forall_forall in Hall.
    destruct (Hall (field r j)) as [-> | (z & -> & _)]; [|reflexivity..].
    unfold fields. apply in_map_iff. now exists r.
Qed.


(** ** Runs on answers that are arrays of arrays *)

Section Answered.

Variable irr : json -> result (list (list cell)).
Variable tdo : cell -> result cell.
Variable source : Source.

Lemma answers_of_length (p : Params) (symbols : list string) :
  forall k datas,
    answers_of source p k symbols datas -> length datas = length symbols.
Proof.
  induction symbols as [|s symbols IH]; intros k [|d datas] H;
    try (now destruct H).
  simpl. f_equal. destruct H as [_ H]. eapply IH, H.
Qed.

Lemma tasks_return (p : Params) (symbols : list string) :
  forall k i datas,
    answers_of source p k symbols datas ->
    Forall constructible datas ->
    exists results,
      Forall2 (returns irr) (tasks_of source p k i symbols) results
      /\ all_fetched symbols datas results.
Proof.
  induction symbols as [|s symbols IH]; intros k i [|d datas] Hans Hc;
    try (now destruct Hans).
  - exists []. split; constructor.
  - destruct Hans as [Hd Hans]. inversion Hc as [|? ? Hcd Hcs]; subst.
    destruct (IH (S k) (S i) datas Hans Hcs) as (results & Hret & Hall).
    destruct (symbol_frame_fetched irr s d Hcd) as (df & Hdf & Hf).
    exists (df :: results). split; [|split; assumption].
    cbn [tasks_of]. constructor; [|exact Hret].
    unfold returns, task_frame. cbn [fst snd]. now rewrite Hd.
Qed.

Lemma candle_ok_fields (data : list (list json)) (j : nat) :
  Forall candle_ok data -> j <= 6 -> keeps_values (fields data j).
Proof.
  intros Hok Hj. left. unfold fields. rewrite List.Forall_map.
  eapply Forall_impl; [exact Hok|].
  intros r (_ & (t & c & Ht & Hc & _) & Hstr) Hnull.
  unfold is_null, field in Hnull.
  destruct j as [|j]; [congruence|].
  destruct (Nat.eq_dec (S j) 6) as [E|N]; [rewrite E in Hnull; congruence|].
  destruct (Hstr (S j)) as [s Hs]; [lia | congruence].
Qed.

Lemma fetched_row_written (symbol : string) (data : list (list json))
    (r : list json) (row : list cell) :
  (forall j, j <= 6 -> keeps_values (fields data j)) ->
  candle_ok r -> fetched_row symbol data r row ->
  written tdo row = record_of symbol r
  /\ converts tdo (nth 0 row NaN) /\ converts tdo (nth 6 row NaN).
Proof.
  intros Hkeep (_ & (t & c & Ht & Hc & Hbt & Hbc) & _) (Hlen & Htag & Hcells).
  assert (Hj : forall j, j <= 6 -> nth j row NaN = Val (nth j r JNull)).
  { intros j Hj. apply (Hcells j); [lia | now apply Hkeep]. }
  unfold written, stamp, converts, record_of, kept.
  rewrite (Hj 0), (Hj 1), (Hj 2), (Hj 3), (Hj 4), (Hj 5), (Hj 6) by lia.
  rewrite Htag, Ht, Hc. cbn [to_datetime_cell].
  rewrite Hbt, Hbc. eauto.
Qed.

Lemma fetched_written (symbol : string) (data : list (list json))
    (df : DataFrame) :
  Forall candle_ok data -> fetched symbol data df ->
  map (written tdo) (rows df) = map (record_of symbol) data
  /\ Forall (fun row => converts tdo (nth 0 row NaN)
                        /\ converts tdo (nth 6 row NaN)) (rows df).
Proof.
  intros Hok (_ & _ & Hrows).
  pose proof (fun j => candle_ok_fields data j Hok) as Hkeep.
  revert Hok Hrows. generalize data at 1 3 4 as rest.
  intros rest Hok Hrows. induction Hrows as [|r row rest rs Hrow _ IH];
    [split; [reflexivity | constructor]|].
  inversion Hok as [|? ? Hr Hrest]; subst.
  destruct (IH Hrest) as [IH1 IH2].
  destruct (fetched_row_written symbol data r row Hkeep Hr Hrow) as [Hw Hconv].
  cbn [map]. rewrite Hw, IH1. split; [reflexivity | now constructor].
Qed.

Lemma all_fetched_written (symbols : list string) :
  forall datas results,
    Forall (Forall candle_ok) datas ->
    all_fetched symbols datas results ->
    map (written tdo) (candles results)
    = concat (zip_with (fun s data => map (record_of s) data) symbols datas)
    /\ Forall (fun row => converts tdo (nth 0 row NaN)
                          /\ converts tdo (nth 6 row NaN))
              (candles results).
Proof.
  induction symbols as [|s symbols IH]; intros [|d datas] [|df results] Hok Hall;
    try (now destruct Hall); try solve [split; [reflexivity | constructor]].
  destruct Hall as [Hf Hall]. inversion Hok as [|? ? Hd Hrest]; subst.
  destruct (IH datas results Hrest Hall) as [IH1 IH2].
  destruct (fetched_written s d df Hd Hf) as [H1 H2].
  unfold candles in *. cbn [map concat zip_with].
  rewrite map_app, H1, IH1. split; [reflexivity | now apply Forall_app].
Qed.

Lemma all_fetched_empty (symbols : list string) :
  forall datas results,
    Forall (fun data => data = []) datas ->
    all_fetched symbols datas results ->
    candles results = [].
Proof.
  induction symbols as [|s symbols IH]; intros [|d datas] [|df results] He Hall;
    try (now destruct Hall).
  destruct Hall as [(_ & _ & Hrows) Hall].
  inversion He as [|? ? -> Hrest]; subst.
  destruct df as [ix cs rs]. cbn [rows] in Hrows. inversion Hrows; subst.
  unfold candles in *. cbn [map concat rows app].
  now apply (IH datas).
Qed.

Lemma candle_ok_constructible (data : list (list json)) :
  Forall candle_ok data -> constructible data.
Proof.
  unfold constructible.
  induction 1 as [|r rest [Hr _] _ IH]; [now left | right].
  cbn [pd.width fold_right]. fold (pd.width rest). rewrite Hr.
  destruct IH as [-> | ->]; reflexivity.
Qed.

End Answered.

(** ** Further properties of the run *)

Section Further.

Variable irr : json -> result (list (list cell)).
Variable tdo : cell -> result cell.
Variable source : Source.

(** A run completes when the catalog lists a symbol, every fetch returns a
    frame and every open and close time converts. *)
Lemma run_completes (schedule : list nat) (args : Args) (console : Console)
    (w : World) (limit : Z) (tf : string) (symbols : list string)
    (results : list DataFrame) :
  cli_limit args console = inr limit ->
  cli_tf args console = inr tf ->
  catalog source w = inr symbols ->
  symbols <> [] ->
  Forall2 (returns irr)
    (tasks_of source (mkParams tf limit) (S (length (sent w))) 0 symbols)
    results ->
  Forall (fun row => converts tdo (nth 0 row NaN)
                     /\ converts tdo (nth 6 row NaN))
         (candles results) ->
  main irr tdo source schedule args console w
  = (inr tt,
     mkWorld (sent w ++ catalog_url
                :: map (endpoint (mkParams tf limit)) symbols)
             (pbar w + length symbols)
             (Some (mkTable output_header
                      (map (written tdo) (candles results))))).
Proof.
  intros Hl Ht Hcat Hne Hret Hconv.
  apply (main_spec irr tdo source schedule args console w _ limit tf Hl Ht).
  exists symbols, results.
  split; [exact Hcat|]. split; [exact Hret|].
  split.
  { apply Forall2_length in Hret. rewrite tasks_of_length in Hret.
    destruct symbols as [|s symbols']; [congruence|].
    destruct results as [|df results']; [discriminate Hret | discriminate]. }
  split; [eapply Forall_impl; [exact Hconv|]; now intros row [H _]|].
  split; [eapply Forall_impl; [exact Hconv|]; now intros row [_ H]|].
  reflexivity.
Qed.

(** X2. When the exchange documents every candle it answers with, for every
    symbol of a catalog that is not empty, the run completes: it has made
    one request for the catalog and one per symbol, the bar has advanced
    once per symbol, and the file holds, symbol after symbol in the order of
    the catalog and candle after candle in the order of the answer, the
    open time as a timestamp, the open, high, low, close and volume strings
    as they were answered, and the symbol. *)
Theorem well_formed_run (schedule : list nat) (args : Args)
    (console : Console) (w : World) (limit : Z) (tf : string)
    (symbols : list string) (datas : list (list (list json))) :
  cli_limit args console = inr limit ->
  cli_tf args console = inr tf ->
  catalog source w = inr symbols ->
  symbols <> [] ->
  answers_of source (mkParams tf limit) (S (length (sent w))) symbols datas ->
  Forall (Forall candle_ok) datas ->
  main irr tdo source schedule args console w
  = (inr tt,
     mkWorld (sent w ++ catalog_url
                :: map (endpoint (mkParams tf limit)) symbols)
             (pbar w + length symbols)
             (Some (mkTable output_header
                      (concat (zip_with (fun s data => map (record_of s) data)
                                        symbols datas))))).
Proof.
  intros Hl Ht Hcat Hne Hans Hok.
  destruct (tasks_return irr source (mkParams tf limit) symbols
              (S (length (sent w))) 0 datas Hans) as (results & Hret & Hall).
  { eapply Forall_impl; [exact Hok|]. apply candle_ok_constructible. }
  destruct (all_fetched_written tdo symbols datas results Hok Hall)
    as [Hbody Hconv].
  rewrite <- Hbody.
  now apply (run_completes schedule args console w limit tf symbols results).
Qed.

(** X3. When the catalog lists at least one symbol and every candle request
    is answered with the empty array, the run completes and writes a file
    that has the header and no record. *)
Theorem no_candles_header_only (schedule : list nat) (args : Args)
    (console : Console) (w : World) (limit : Z) (tf : string)
    (symbols : list string) (datas : list (list (list json))) :
  cli_limit args console = inr limit ->
  cli_tf args console = inr tf ->
  catalog source w = inr symbols ->
  symbols <> [] ->
  answers_of source (mkParams tf limit) (S (length (sent w))) symbols datas ->
  Forall (fun data => data = []) datas ->
  main irr tdo source schedule args console w
  = (inr tt,
     mkWorld (sent w ++ catalog_url
                :: map (endpoint (mkParams tf limit)) symbols)
             (pbar w + length symbols)
             (Some (mkTable output_header []))).
Proof.
  intros Hl Ht Hcat Hne Hans Hempty.
  destruct (tasks_return irr source (mkParams tf limit) symbols
              (S (length (sent w))) 0 datas Hans) as (results & Hret & Hall).
  { eapply Forall_impl; [exact Hempty|]. intros data ->. now left. }
  pose proof (all_fetched_empty symbols datas results Hempty Hall) as Hnone.
  rewrite (run_completes schedule args console w limit tf symbols results);
    try assumption.
  - now rewrite Hnone.
  - rewrite Hnone. constructor.
Qed.

(** X4. When the catalog lists no symbol, no candle is requested and the
    run raises [KeyError] for the column Open time: nothing was put into the
    frame that would have the column.  The file is left as it was. *)
Theorem empty_catalog_raises (schedule : list nat) (args : Args)
    (console : Console) (w : World) (limit : Z) (tf : string) :
  cli_limit args console = inr limit ->
  cli_tf args console = inr tf ->
  catalog source w = inr [] ->
  main irr tdo source schedule args console w
  = (inl (KeyError "Open time"),
     mkWorld (sent w ++ [catalog_url]) (pbar w) (disk w)).
Proof.
  intros Hl Ht Hcat. unfold main. rewrite Hl, Ht. unfold scrape, bind.
  pose proof (scrape_fetch_all_cases irr source schedule
                (mkState (init tf limit) w)) as Hc.
  cbv zeta in Hc. cbn [self world symbols_url init params] in Hc.
  unfold catalog in Hcat. fold catalog_url in Hc.
  destruct (source (length (sent w)) catalog_url) as [e|response];
    [discriminate|].
  rewrite Hcat in Hc. rewrite Hc. clear Hc.
  cbn [tasks_of map]. unfold gather, bind. cbn [length gather_loop replicate].
  unfold ret. change (omap id (@nil (option DataFrame))) with (@nil DataFrame).
  match goal with
  | |- context [scrape_assemble tdo [] ?st] =>
      pose proof (scrape_assemble_spec tdo [] st) as Hs
  end.
  unfold assemble in Hs. cbn [self historical_data with_symbols_list init] in Hs.
  change (finish tdo (fold_left pd.concat [] pd.empty))
    with (@inl exn DataFrame (KeyError "Open time")) in Hs.
  destruct Hs as (st' & -> & ->). reflexivity.
Qed.

End Further.

(** ** The catalog keeps the order of the answer *)

Lemma comprehension_selects (entries : list json) :
  forall symbols,
    comprehension entries = inr symbols -> selects entries symbols.
Proof.
  induction entries as [|entry rest IH]; intros symbols H.
  - injection H as <-. constructor.
  - cbn [comprehension] in H.
    destruct (keep_symbol entry) as [e|kept] eqn:Hk; [discriminate|].
    destruct (comprehension rest) as [e|tail] eqn:Hrest; [discriminate|].
    injection H as <-. specialize (IH tail eq_refl). destruct kept as [s|].
    + apply selects_keep; [now apply keep_symbol_some | exact IH].
    + apply selects_skip; [|exact IH].
      intros s Hl. apply keep_symbol_some in Hl. congruence.
Qed.

(** X5. The catalog lists the identifiers of the listed entries in the order
    in which the exchange answered them, once per listed entry: an entry
    answered twice is listed twice. *)
Theorem catalog_in_order (response : json) (entries : list json)
    (symbols : list string) :
  Py.getitem response "symbols" = inr (JArr entries) ->
  list_symbols response = inr symbols ->
  selects entries symbols.
Proof.
  intros Hget. unfold list_symbols. rewrite Hget. cbn [Py.iter].
  apply comprehension_selects.
Qed.

(** ** What a run that raises has done *)

Section Raising.

Variable irr : json -> result (list (list cell)).
Variable tdo : cell -> result cell.
Variable source : Source.

Lemma gather_loop_raised (schedule : list nat) (n : nat) :
  forall step pending slots st e st',
    gather_loop irr schedule n step pending slots st = (inl e, st') ->
    exists t, t ∈ pending /\ task_frame irr t = inl e.
Proof.
  induction n as [|n IH]; intros step pending slots st e st' Hrun;
    [discriminate|].
  cbn [gather_loop] in Hrun.
  set (k := (nth step schedule 0 mod length pending)%nat) in *. clearbody k.
  destruct (pending !! k) as [[[i symbol] answer]|] eqn:Hat; [|discriminate].
  unfold bind in Hrun. rewrite get_historical_data_end_eq in Hrun.
  destruct (symbol_frame irr symbol answer) as [e0|df] eqn:Hframe.
  - injection Hrun as <- _. exists (i, symbol, answer).
    split; [eapply list_elem_of_lookup_2, Hat | exact Hframe].
  - apply IH in Hrun. destruct Hrun as (t & Ht & Hfail).
    exists t. split; [eapply list_elem_of_delete_inv, Ht | exact Hfail].
Qed.

Lemma gather_loop_pbar (schedule : list nat) (n : nat) :
  forall step pending slots st,
    pbar (world st)
    <= pbar (world (snd (gather_loop irr schedule n step pending slots st)))
    <= pbar (world st) + n.
Proof.
  induction n as [|n IH]; intros step pending slots st; cbn [gather_loop].
  - cbn. lia.
  - set (k := (nth step schedule 0 mod length pending)%nat). clearbody k.
    destruct (pending !! k) as [[[i symbol] answer]|]; [|cbn; lia].
    unfold bind. rewrite get_historical_data_end_eq.
    destruct (symbol_frame irr symbol answer) as [e0|df]; [cbn; lia|].
    specialize (IH (S step) (delete k pending) (<[i:=Some df]> slots)
                   (advance 1 st)).
    cbn [advance world pbar] in IH. lia.
Qed.

Lemma tasks_of_elem (p : Params) (symbols : list string) :
  forall k j t,
    t ∈ tasks_of source p k j symbols ->
    exists i s,
      symbols !! i = Some s
      /\ t = ((j + i)%nat, s, source (k + i)%nat (endpoint p s)).
Proof.
  induction symbols as [|s0 rest IH]; intros k j t Ht; [inversion Ht|].
  cbn [tasks_of] in Ht. apply elem_of_cons in Ht. destruct Ht as [-> | Ht].
  - exists 0%nat, s0. now rewrite !Nat.add_0_r.
  - destruct (IH _ _ _ Ht) as (i & s & Hs & ->). exists (S i), s.
    split; [exact Hs|].
    replace (S j + i)%nat with (j + S i)%nat by lia.
    replace (S k + i)%nat with (k + S i)%nat by lia. reflexivity.
Qed.

(** The outcome of a run whose catalog is read, by the outcome of the
    fan-in. *)
Lemma main_after_catalog (schedule : list nat) (args : Args)
    (console : Console) (w : World) (limit : Z) (tf : string)
    (symbols : list string) :
  cli_limit args console = inr limit ->
  cli_tf args console = inr tf ->
  catalog source w = inr symbols ->
  exists st0,
    world st0 = mkWorld (sent w ++ catalog_url
                           :: map (endpoint (mkParams tf limit)) symbols)
                        (pbar w) (disk w)
    /\ main irr tdo source schedule args console w
       = match gather irr schedule
                 (tasks_of source (mkParams tf limit) (S (length (sent w))) 0
                           symbols) st0 with
         | (inl e, st1) => (inl e, world st1)
         | (inr results, st1) =>
             let (outcome, st2) := scrape_assemble tdo results st1 in
             (outcome, world st2)
         end.
Proof.
  intros Hl Ht Hcat. unfold main. rewrite Hl, Ht. unfold scrape, bind.
  pose proof (scrape_fetch_all_cases irr source schedule
                (mkState (init tf limit) w)) as Hc.
  cbv zeta in Hc. cbn [self world symbols_url init params] in Hc.
  unfold catalog in Hcat. fold catalog_url in Hc.
  destruct (source (length (sent w)) catalog_url) as [e|response];
    [discriminate|].
  rewrite Hcat in Hc. rewrite Hc. clear Hc.
  match goal with
  | |- context [gather irr schedule ?tasks ?st0] =>
      exists st0; split; [reflexivity|];
      destruct (gather irr schedule tasks st0) as [[e|results] st1]
  end; reflexivity.
Qed.

(** X6. When the candle fetch of some symbol raises, the exception the run
    ends with is the exception of the fetch of one of the symbols of the
    catalog: the fan-in passes on what a fetch raised and nothing else. *)
Theorem raised_by_a_fetch (schedule : list nat) (args : Args)
    (console : Console) (w : World) (limit : Z) (tf : string)
    (symbols : list string) (i0 : nat) (s0 : string) (e0 : exn) :
  cli_limit args console = inr limit ->
  cli_tf args console = inr tf ->
  catalog source w = inr symbols ->
  symbols !! i0 = Some s0 ->
  symbol_frame irr s0
    (source (S (length (sent w)) + i0)%nat (endpoint (mkParams tf limit) s0))
  = inl e0 ->
  exists i s e,
    symbols !! i = Some s
    /\ symbol_frame irr s
         (source (S (length (sent w)) + i)%nat (endpoint (mkParams tf limit) s))
       = inl e
    /\ fst (main irr tdo source schedule args console w) = inl e.
Proof.
  intros Hl Ht Hcat Hs0 Hfail0.
  destruct (main_after_catalog schedule args console w limit tf symbols
              Hl Ht Hcat) as (st0 & _ & Hmain).
  rewrite Hmain. clear Hmain.
  set (tasks := tasks_of source (mkParams tf limit) (S (length (sent w))) 0
                         symbols).
  destruct (gather irr schedule tasks st0) as [[e|results] st1] eqn:Hg.
  - unfold gather, bind in Hg.
    destruct (gather_loop irr schedule (length tasks) 0 tasks
                (replicate (length tasks) None) st0) as [[e'|res] st'] eqn:Hloop;
      [|discriminate].
    injection Hg as <- <-. apply gather_loop_raised in Hloop.
    destruct Hloop as (t & Ht' & Hframe).
    apply tasks_of_elem in Ht'. destruct Ht' as (i & s & Hs & ->).
    exists i, s, e'. repeat split; [exact Hs | exact Hframe].
  - exfalso. apply gather_iff in Hg.
    + destruct Hg as [Hret _].
      pose proof (tasks_of_lookup source (mkParams tf limit) symbols
                    (S (length (sent w))) 0 i0 s0 Hs0) as Htask.
      destruct (Forall2_lookup_l _ _ _ _ _ Hret Htask) as (df & _ & Hdf).
      unfold returns, task_frame in Hdf. cbn [fst snd] in Hdf. congruence.
    + subst tasks. now rewrite tasks_of_idx, tasks_of_length.
Qed.

(** X7. Once the catalog is read, the progress bar never passes its total,
    the number of symbols, whatever the run ends with, and it stands at the
    total when the run completes. *)
Theorem progress_within_total (schedule : list nat) (args : Args)
    (console : Console) (w : World) (limit : Z) (tf : string)
    (symbols : list string) :
  cli_limit args console = inr limit ->
  cli_tf args console = inr tf ->
  catalog source w = inr symbols ->
  pbar w <= pbar (snd (main irr tdo source schedule args console w))
         <= pbar w + length symbols
  /\ (fst (main irr tdo source schedule args console w) = inr tt ->
      pbar (snd (main irr tdo source schedule args console w))
      = pbar w + length symbols).
Proof.
  intros Hl Ht Hcat. split.
  - destruct (main_after_catalog schedule args console w limit tf symbols
                Hl Ht Hcat) as (st0 & Hw0 & Hmain).
    rewrite Hmain. clear Hmain.
    set (tasks := tasks_of source (mkParams tf limit) (S (length (sent w))) 0
                           symbols).
    assert (Hn : length tasks = length symbols) by apply tasks_of_length.
    pose proof (gather_loop_pbar schedule (length tasks) 0 tasks
                  (replicate (length tasks) None) st0) as Hb.
    rewrite Hw0 in Hb. cbn [pbar] in Hb.
    unfold gather, bind.
    remember (gather_loop irr schedule (length tasks) 0 tasks
                (replicate (length tasks) None) st0) as r eqn:Hr.
    clear Hr. destruct r as [[e|res] st1]; cbn [snd] in Hb |- *;
      rewrite Hn in Hb; [exact Hb|].
    unfold ret.
    pose proof (scrape_assemble_spec tdo (omap id res) st1) as Hs.
    destruct (assemble tdo (omap id res) (historical_data (self st1)))
      as [e|df].
    + destruct Hs as (st' & -> & ->). exact Hb.
    + rewrite Hs. exact Hb.
  - intros Hok.
    destruct (main irr tdo source schedule args console w) as [o w'] eqn:Hm.
    cbn [fst snd] in *. subst o.
    apply (main_spec irr tdo source schedule args console w w' limit tf Hl Ht)
      in Hm.
    destruct Hm as (symbols' & results & Hcat' & _ & _ & _ & _ & ->).
    rewrite Hcat in Hcat'. injection Hcat' as <-. reflexivity.
Qed.

(** X8. A candle whose open time or close time does not convert makes the
    run raise and leave the file as it was, the close time too, although
    its column is dropped before the file is written. *)
Theorem unconverted_time_aborts (schedule : list nat) (args : Args)
    (console : Console) (w : World) (limit : Z) (tf : string)
    (symbols : list string) (i : nat) (s : string) (df : DataFrame)
    (candle : list cell) (e : exn) :
  cli_limit args console = inr limit ->
  cli_tf args console = inr tf ->
  catalog source w = inr symbols ->
  symbols !! i = Some s ->
  symbol_frame irr s
    (source (S (length (sent w)) + i)%nat (endpoint (mkParams tf limit) s))
  = inr df ->
  In candle (rows df) ->
  to_datetime_cell tdo (nth 0 candle NaN) = inl e
  \/ to_datetime_cell tdo (nth 6 candle NaN) = inl e ->
  exists e',
    fst (main irr tdo source schedule args console w) = inl e'
    /\ disk (snd (main irr tdo source schedule args console w)) = disk w.
Proof.
  intros Hl Ht Hcat Hs Hdf Hin Hbad.
  destruct (main_world irr tdo source schedule args console w limit tf Hl Ht)
    as [_ Hdisk].
  destruct (main irr tdo source schedule args console w) as [[e'|[]] w'] eqn:Hm.
  { exists e'. split; [reflexivity | now apply (Hdisk e')]. }
  exfalso.
  apply (main_spec irr tdo source schedule args console w w' limit tf Hl Ht)
    in Hm.
  destruct Hm as (symbols' & results & Hcat' & Hret & _ & Hopen & Hclose & _).
  rewrite Hcat in Hcat'. injection Hcat' as <-.
  pose proof (tasks_of_lookup source (mkParams tf limit) symbols
                (S (length (sent w))) 0 i s Hs) as Htask.
  destruct (Forall2_lookup_l _ _ _ _ _ Hret Htask) as (df' & Hat & Hdf').
  unfold returns, task_frame in Hdf'. cbn [fst snd] in Hdf'.
  rewrite Hdf in Hdf'. injection Hdf' as <-.
  assert (Hc : In candle (candles results)).
  { unfold candles. apply in_concat. exists (rows df). split; [|exact Hin].
    apply in_map. apply list_elem_of_In. eapply list_elem_of_lookup_2, Hat. }
  rewrite List.Forall_forall in Hopen, Hclose.
  destruct (Hopen _ Hc) as [t1 H1]. destruct (Hclose _ Hc) as [t2 H2].
  destruct Hbad; congruence.
Qed.

(** X9. A run that raises leaves the file as it was, whatever raised: a
    prompt, the catalog, a fetch, a conversion.  The file changes only in a
    run that completes. *)
Theorem file_only_on_success (schedule : list nat) (args : Args)
    (console : Console) (w : World) (e : exn) :
  fst (main irr tdo source schedule args console w) = inl e ->
  disk (snd (main irr tdo source schedule args console w)) = disk w.
Proof.
  destruct (cli_limit args console) as [el|limit] eqn:Hl.
  { unfold main. rewrite Hl. reflexivity. }
  destruct (cli_tf args console) as [et|tf] eqn:Ht.
  { unfold main. rewrite Hl, Ht. reflexivity. }
  apply (proj2 (main_world irr tdo source schedule args console w limit tf
                  Hl Ht)).
Qed.


(** X10. After a [scrape] that completes, the scraper holds what the run
    produced: [symbols_list] is the catalog read from the answer to the
    first request, [historical_data] is the frame whose table is in the
    file, and [params] and [symbols_url] are as they were. *)
Theorem scrape_attributes (schedule : list nat) (st st' : State) :
  scrape irr tdo source schedule st = (inr tt, st') ->
  (exists response,
     source (length (sent (world st))) (symbols_url (self st)) = inr response
     /\ list_symbols response = inr (symbols_list (self st')))
  /\ disk (world st') = Some (pd.to_table (historical_data (self st')))
  /\ params (self st') = params (self st)
  /\ symbols_url (self st') = symbols_url (self st).
Proof.
  unfold scrape, bind. intros Hrun.
  pose proof (scrape_fetch_all_cases irr source schedule st) as Hc.
  cbv zeta in Hc.
  destruct (source (length (sent (world st))) (symbols_url (self st)))
    as [e|response]; [rewrite Hc in Hrun; discriminate|].
  destruct (list_symbols response) as [e|symbols] eqn:Hsym;
    [rewrite Hc in Hrun; discriminate|].
  rewrite Hc in Hrun. clear Hc.
  match type of Hrun with
  | context [gather irr schedule ?tasks ?st0] =>
      destruct (gather_world irr schedule tasks st0) as (Hself & _ & _);
      destruct (gather irr schedule tasks st0) as [[e|results] st1];
      [discriminate|]
  end.
  cbn [snd self] in Hself.
  pose proof (scrape_assemble_spec tdo results st1) as Hs.
  destruct (assemble tdo results (historical_data (self st1))) as [e|df].
  - destruct Hs as (st2 & Hs & _). rewrite Hs in Hrun. discriminate.
  - rewrite Hs in Hrun. injection Hrun as <-.
    cbn [self world disk historical_data with_historical_data symbols_list
         params symbols_url].
    rewrite Hself. cbn [symbols_list params symbols_url with_symbols_list].
    split; [exists response; split; [reflexivity | exact Hsym]|].
    repeat split.
Qed.

(** X11. Whatever the exchange answers, a fetch that returns has built a
    frame with the 12 candle columns followed by Symbol, every row of which
    has 13 cells, the last being the symbol asked for; the request is
    logged and the progress bar has advanced by one. *)
Theorem fetched_frame_shape (symbol : string) (st st' : State)
    (df : DataFrame) :
  get_historical_data irr source symbol st = (inr df, st') ->
  index df = None
  /\ columns df = kline_columns ++ ["Symbol"]
  /\ Forall (fun row => length row = 13%nat
                        /\ nth 12 row NaN = Val (JStr symbol)) (rows df)
  /\ st' = advance 1 (requested [endpoint (params (self st)) symbol] st).
Proof.
  rewrite get_historical_data_eq. cbv zeta.
  destruct (symbol_frame irr symbol _) as [e|df0] eqn:Hf; [discriminate|].
  intros [= <- <-]. apply symbol_frame_shaped in Hf.
  destruct Hf as [(Hi & Hc & Hlen) Htag].
  repeat split; try assumption.
  rewrite List.Forall_forall in Hlen, Htag. apply List.Forall_forall.
  intros row Hrow. split; [now apply Hlen | now apply Htag].
Qed.

Lemma symbol_frame_length (symbol : string) (data : list (list json))
    (df : DataFrame) :
  symbol_frame irr symbol (inr (JArr (map JArr data))) = inr df ->
  length (rows df) = length data.
Proof.
  unfold symbol_frame, DataFrame_of. rewrite arrays_map_JArr.
  destruct (pd.from_rows data kline_columns) as [e|f] eqn:Hf; [discriminate|].
  intros [= <-]. rewrite setitem_scalar_length.
  now apply (from_rows_length _ _ _ Hf).
Qed.

Lemma answered_rows (p : Params) (symbols : list string) :
  forall k i datas results,
    answers_of source p k symbols datas ->
    Forall2 (returns irr) (tasks_of source p k i symbols) results ->
    list_sum (map (fun df => length (rows df)) results)
    = list_sum (map (@length (list json)) datas).
Proof.
  induction symbols as [|s symbols IH]; intros k i [|d datas] results Hans Hret;
    try (now destruct Hans).
  - inversion Hret. reflexivity.
  - destruct Hans as [Hd Hans]. cbn [tasks_of] in Hret.
    inversion Hret as [|? df ? dfs Hdf Hrest]; subst.
    unfold returns, task_frame in Hdf. cbn [fst snd] in Hdf. rewrite Hd in Hdf.
    apply symbol_frame_length in Hdf.
    pose proof (IH _ _ _ _ Hans Hrest) as E.
    cbn [map]. unfold list_sum in *. cbn [fold_right]. now rewrite E, Hdf.
Qed.

Lemma lengths_bounded (limit : Z) (datas : list (list (list json))) :
  Forall (fun data => (Z.of_nat (length data) <= limit)%Z) datas ->
  (Z.of_nat (list_sum (map (@length (list json)) datas))
   <= Z.of_nat (length datas) * limit)%Z.
Proof.
  induction 1 as [|d datas Hd _ IH]; unfold list_sum in *;
    cbn [map fold_right length]; lia.
Qed.

(** X12. When every candle request is answered with an array of at most
    [limit] arrays, the file of a run that completes has at most as many
    records as the catalog has symbols, times [limit]. *)
Theorem output_bounded (schedule : list nat) (args : Args)
    (console : Console) (w w' : World) (limit : Z) (tf : string)
    (symbols : list string) (datas : list (list (list json))) :
  cli_limit args console = inr limit ->
  cli_tf args console = inr tf ->
  catalog source w = inr symbols ->
  answers_of source (mkParams tf limit) (S (length (sent w))) symbols datas ->
  Forall (fun data => (Z.of_nat (length data) <= limit)%Z) datas ->
  main irr tdo source schedule args console w = (inr tt, w') ->
  exists table,
    disk w' = Some table
    /\ (Z.of_nat (length (body table))
        <= Z.of_nat (length symbols) * limit)%Z.
Proof.
  intros Hl Ht Hcat Hans Hlim Hm.
  apply (main_spec irr tdo source schedule args console w w' limit tf Hl Ht)
    in Hm.
  destruct Hm as (symbols' & results & Hcat' & Hret & _ & _ & _ & ->).
  rewrite Hcat in Hcat'. injection Hcat' as <-.
  eexists. split; [reflexivity|]. cbn [body].
  unfold candles. rewrite length_map, length_concat, map_map.
  rewrite (answered_rows _ _ _ _ _ _ Hans Hret).
  rewrite <- (answers_of_length source _ _ _ _ Hans).
  now apply lengths_bounded.
Qed.

End Raising.

(** ** The further properties on the sample exchanges *)


(** The number of trades of the second candle is missing: the column is
    held as floats, the other columns as they were answered. *)
Example gapped_trades :
  exists df,
    fst (get_historical_data Sample.no_rows Cases.exchange_gapped "BTCUSDT"
           (Sample.built "1m" 5)) = inr df
    /\ map (fun row => nth 8 row NaN) (rows df) = [Float 1; NaN]
    /\ map (fun row => nth 0 row NaN) (rows df)
       = [Val (JInt 1700000000000); Val (JInt 1700000060000)]
    /\ map (fun row => nth 5 row NaN) (rows df)
       = [Val (JStr "10"); Val (JStr "11")].
Proof. eexists. vm_compute. repeat split. Qed.

Lemma sample_candle_ok (t : Z) (o h l c v : string) :
  in_bounds t = true -> in_bounds (t + 59999) = true ->
  candle_ok (Sample.candle t o h l c v).
Proof.
  intros Ht Hc. split; [reflexivity|]. split.
  - exists t, (t + 59999)%Z. repeat split; assumption.
  - intros j Hj. unfold is_str.
    do 6 (destruct j as [|j]; [cbn [nth Sample.candle]; eauto; lia|]). lia.
Qed.

Lemma sample_candles_ok :
  Forall (Forall candle_ok) [Sample.btc; Sample.eth].
Proof.
  repeat first [apply List.Forall_nil | apply List.Forall_cons];
    apply sample_candle_ok; vm_compute; reflexivity.
Qed.

Lemma well_formed_run_witness :
  main Sample.no_rows Sample.no_stamp (Sample.exchange "1m" 5) [1%nat; 0%nat]
       (Sample.options "1m" 5) Sample.no_console Cases.used
  = (inr tt,
     mkWorld (sent Cases.used ++ catalog_url
                :: map (endpoint (mkParams "1m" 5)) ["BTCUSDT"; "ETHUSDT"])
             (pbar Cases.used + length ["BTCUSDT"; "ETHUSDT"])
             (Some (mkTable output_header
                      (concat (zip_with (fun s data => map (record_of s) data)
                                        ["BTCUSDT"; "ETHUSDT"]
                                        [Sample.btc; Sample.eth]))))).
Proof.
  apply (well_formed_run Sample.no_rows Sample.no_stamp
           (Sample.exchange "1m" 5) [1%nat; 0%nat] (Sample.options "1m" 5)
           Sample.no_console Cases.used 5 "1m" ["BTCUSDT"; "ETHUSDT"]
           [Sample.btc; Sample.eth]).
  - vm_compute; reflexivity.
  - vm_compute; reflexivity.
  - vm_compute; reflexivity.
  - discriminate.
  - vm_compute. repeat split.
  - exact sample_candles_ok.
Defined.

Lemma no_candles_header_only_witness :
  main Sample.no_rows Sample.no_stamp Cases.exchange_quiet []
       (Sample.options "1h" 1000) Sample.no_console Sample.stale
  = (inr tt,
     mkWorld (sent Sample.stale ++ catalog_url
                :: map (endpoint (mkParams "1h" 1000)) ["BTCUSDT"; "ETHUSDT"])
             (pbar Sample.stale + length ["BTCUSDT"; "ETHUSDT"])
             (Some (mkTable output_header []))).
Proof.
  apply (no_candles_header_only Sample.no_rows Sample.no_stamp
           Cases.exchange_quiet [] (Sample.options "1h" 1000)
           Sample.no_console Sample.stale 1000 "1h" ["BTCUSDT"; "ETHUSDT"]
           [[]; []]).
  - vm_compute; reflexivity.
  - vm_compute; reflexivity.
  - vm_compute; reflexivity.
  - discriminate.
  - vm_compute. repeat split.
  - repeat first [apply List.Forall_nil | apply List.Forall_cons]; reflexivity.
Defined.

Lemma empty_catalog_raises_witness :
  main Sample.no_rows Sample.no_stamp Cases.exchange_no_usdt []
       (Sample.options "1m" 5) Sample.no_console Sample.stale
  = (inl (KeyError "Open time"),
     mkWorld (sent Sample.stale ++ [catalog_url]) (pbar Sample.stale)
             (disk Sample.stale)).
Proof.
  apply (empty_catalog_raises Sample.no_rows Sample.no_stamp
           Cases.exchange_no_usdt [] (Sample.options "1m" 5)
           Sample.no_console Sample.stale 5 "1m");
    vm_compute; reflexivity.
Defined.

Lemma catalog_in_order_witness :
  selects [Sample.entry "BTCUSDT" "TRADING"; Sample.entry "ETHBTC" "TRADING";
           Sample.entry "LUNAUSDT" "BREAK"; Sample.entry "ETHUSDT" "TRADING"]
          ["BTCUSDT"; "ETHUSDT"].
Proof.
  apply (catalog_in_order Sample.info); vm_compute; reflexivity.
Defined.

Lemma raised_by_a_fetch_witness :
  exists i s e,
    ["BTCUSDT"; "ETHUSDT"] !! i = Some s
    /\ symbol_frame Sample.no_rows s
         (Sample.exchange_eth_down "1m" 5 (S (length (sent Sample.fresh)) + i)%nat
            (endpoint (mkParams "1m" 5) s))
       = inl e
    /\ fst Sample.run_eth_down = inl e.
Proof.
  apply (raised_by_a_fetch Sample.no_rows Sample.no_stamp
           (Sample.exchange_eth_down "1m" 5) [1%nat; 0%nat]
           (Sample.options "1m" 5) Sample.no_console Sample.fresh 5 "1m"
           ["BTCUSDT"; "ETHUSDT"] 1 "ETHUSDT"
           (ClientError "Server disconnected"));
    vm_compute; reflexivity.
Defined.

Lemma progress_within_total_witness :
  pbar Sample.fresh <= pbar (snd Sample.run)
                    <= pbar Sample.fresh + length ["BTCUSDT"; "ETHUSDT"]
  /\ (fst Sample.run = inr tt ->
      pbar (snd Sample.run)
      = pbar Sample.fresh + length ["BTCUSDT"; "ETHUSDT"]).
Proof.
  apply (progress_within_total Sample.no_rows Sample.no_stamp
           (Sample.exchange "1m" 5) [1%nat; 0%nat] (Sample.options "1m" 5)
           Sample.no_console Sample.fresh 5 "1m" ["BTCUSDT"; "ETHUSDT"]);
    vm_compute; reflexivity.
Defined.

Lemma unconverted_time_aborts_witness :
  exists e',
    fst (main Sample.no_rows Sample.no_stamp Cases.exchange_odd_close []
              (Sample.options "1m" 5) Sample.no_console Sample.stale)
    = inl e'
    /\ disk (snd (main Sample.no_rows Sample.no_stamp Cases.exchange_odd_close
                       [] (Sample.options "1m" 5) Sample.no_console
                       Sample.stale))
       = disk Sample.stale.
Proof.
  apply (unconverted_time_aborts Sample.no_rows Sample.no_stamp
           Cases.exchange_odd_close [] (Sample.options "1m" 5)
           Sample.no_console Sample.stale 5 "1m" ["BTCUSDT"; "ETHUSDT"]
           0 "BTCUSDT" (tagged_frame "BTCUSDT" Cases.odd_close)
           (tagged_row "BTCUSDT" (nth 1 Cases.odd_close []))
           ValueError).
  - vm_compute; reflexivity.
  - vm_compute; reflexivity.
  - vm_compute; reflexivity.
  - vm_compute; reflexivity.
  - vm_compute; reflexivity.
  - right. left. vm_compute. reflexivity.
  - right. vm_compute. reflexivity.
Defined.

Lemma file_only_on_success_witness :
  disk (snd Sample.run_eth_down) = disk Sample.fresh.
Proof.
  apply (file_only_on_success Sample.no_rows Sample.no_stamp
           (Sample.exchange_eth_down "1m" 5) [1%nat; 0%nat]
           (Sample.options "1m" 5) Sample.no_console Sample.fresh
           (ClientError "Server disconnected")).
  vm_compute; reflexivity.
Defined.


Lemma scrape_attributes_witness :
  (exists response,
     Sample.exchange "1m" 5 (length (sent (world (Sample.built "1m" 5))))
       (symbols_url (self (Sample.built "1m" 5))) = inr response
     /\ list_symbols response
        = inr (symbols_list
                 (self (snd (scrape Sample.no_rows Sample.no_stamp
                               (Sample.exchange "1m" 5) [] (Sample.built "1m" 5))))))
  /\ disk (world (snd (scrape Sample.no_rows Sample.no_stamp
                         (Sample.exchange "1m" 5) [] (Sample.built "1m" 5))))
     = Some (pd.to_table
               (historical_data
                  (self (snd (scrape Sample.no_rows Sample.no_stamp
                                (Sample.exchange "1m" 5) []
                                (Sample.built "1m" 5))))))
  /\ params (self (snd (scrape Sample.no_rows Sample.no_stamp
                          (Sample.exchange "1m" 5) [] (Sample.built "1m" 5))))
     = params (self (Sample.built "1m" 5))
  /\ symbols_url (self (snd (scrape Sample.no_rows Sample.no_stamp
                               (Sample.exchange "1m" 5) []
                               (Sample.built "1m" 5))))
     = symbols_url (self (Sample.built "1m" 5)).
Proof.
  apply (scrape_attributes Sample.no_rows Sample.no_stamp
           (Sample.exchange "1m" 5) [] (Sample.built "1m" 5)).
  vm_compute; reflexivity.
Defined.

Lemma fetched_frame_shape_witness :
  index (tagged_frame "BTCUSDT" Sample.ragged) = None
  /\ columns (tagged_frame "BTCUSDT" Sample.ragged) = kline_columns ++ ["Symbol"]
  /\ Forall (fun row => length row = 13%nat
                        /\ nth 12 row NaN = Val (JStr "BTCUSDT"))
            (rows (tagged_frame "BTCUSDT" Sample.ragged))
  /\ snd (get_historical_data Sample.no_rows (Sample.exchange_ragged "1m" 5)
             "BTCUSDT" (Sample.built "1m" 5))
     = advance 1
         (requested [endpoint (params (self (Sample.built "1m" 5))) "BTCUSDT"]
                    (Sample.built "1m" 5)).
Proof.
  apply (fetched_frame_shape Sample.no_rows (Sample.exchange_ragged "1m" 5)
           "BTCUSDT" (Sample.built "1m" 5)).
  vm_compute; reflexivity.
Defined.

Lemma output_bounded_witness :
  exists table,
    disk (snd Sample.run) = Some table
    /\ (Z.of_nat (length (body table))
        <= Z.of_nat (length ["BTCUSDT"; "ETHUSDT"]) * 5)%Z.
Proof.
  apply (output_bounded Sample.no_rows Sample.no_stamp (Sample.exchange "1m" 5)
           [1%nat; 0%nat] (Sample.options "1m" 5) Sample.no_console
           Sample.fresh (snd Sample.run) 5 "1m" ["BTCUSDT"; "ETHUSDT"]
           [Sample.btc; Sample.eth]).
  - vm_compute; reflexivity.
  - vm_compute; reflexivity.
  - vm_compute; reflexivity.
  - vm_compute. repeat split.
  - repeat first [apply List.Forall_nil | apply List.Forall_cons];
      vm_compute; discriminate.
  - vm_compute; reflexivity.
Defined.
